(** * go-logger: a shallow embedding of [logger.go] and its properties

    The package is a thin JSON formatter over three pieces of the Go
    standard library: [time.Time.Format], [encoding/json.Marshal] and
    [fmt.Fprintln].  The file is organised as follows.

    - [Bytes]    : Go strings are byte strings; helpers on bytes.
    - [Strconv]  : decimal rendering of integers.
    - [GoTime]   : reference-layout formatting, as [time.Time.Format] does it.
    - [JSON]     : the encoder used by [json.Marshal] for the values a field
                   can hold, and an RFC 8259 reader used to state what an
                   emitted line parses to.
    - [Utf8]     : decoding and encoding of runes, as [unicode/utf8] does.
    - [logger]   : the package itself: loggers live in a heap, the methods
                   are programs of a small state-and-outcome monad.
    - [Spec]     : the vocabulary of the statements.
    - the lemmas on the models, and one theorem for each documented
      property of the package. *)

From Stdlib Require Import ZArith NArith Ascii String List Lia Bool.
From Stdlib Require Import Sorting.Permutation.
From stdpp Require Import base option list gmap strings sorting fin_maps.

Local Open Scope string_scope.
Local Open Scope Z_scope.

(* ===================================================================== *)
(** ** Bytes *)
(* ===================================================================== *)

Module Bytes.

(** A Go [string] is an immutable sequence of bytes; [ascii] is the byte. *)
Definition byte_val (c : ascii) : N := N_of_ascii c.

Definition byte_of (n : N) : ascii := ascii_of_N n.

Definition byte_eqb (a b : ascii) : bool := (byte_val a =? byte_val b)%N.

(** [lo <= c <= hi] on byte values. *)
Definition in_range (lo hi : N) (c : ascii) : bool :=
  ((lo <=? byte_val c) && (byte_val c <=? hi))%N.

Definition isDigit (c : ascii) : bool := in_range 48 57 c.

Fixpoint repeat_byte (c : ascii) (n : nat) : string :=
  match n with
  | O => ""
  | S k => String c (repeat_byte c k)
  end.

(** The double quote, and a text between two of them. *)
Definition quote : string := String (byte_of 0x22) "".

Definition quoted (s : string) : string := quote ++ s ++ quote.

(** [strings.HasPrefix] that also hands back what follows the prefix. *)
Fixpoint strip_prefix (p s : string) : option string :=
  match p with
  | "" => Some s
  | String a p' =>
      match s with
      | String b s' => if byte_eqb a b then strip_prefix p' s' else None
      | "" => None
      end
  end.

(** [s[:n]], cut short at the end of [s]. *)
Fixpoint take (n : nat) (s : string) : string :=
  match n, s with
  | S k, String c s' => String c (take k s')
  | _, _ => ""
  end.

(** [s[n:]], empty past the end of [s]. *)
Fixpoint drop (n : nat) (s : string) : string :=
  match n, s with
  | S k, String _ s' => drop k s'
  | _, _ => s
  end.

End Bytes.

(* ===================================================================== *)
(** ** Strconv *)
(* ===================================================================== *)

Module Strconv.
Import Bytes.

Definition digit_char (d : N) : ascii := byte_of (48 + d).

(** The decimal digits of [n], most significant first, pushed in front of
    [acc].  Every round divides by ten, so [fuel] rounds are enough as
    soon as [n < 10 ^ fuel]. *)
Fixpoint utoa_go (fuel : nat) (n : N) (acc : string) : string :=
  let acc' := String (digit_char (n mod 10)) acc in
  match fuel with
  | O => acc'
  | S f => if (n / 10 =? 0)%N then acc' else utoa_go f (n / 10) acc'
  end.

Definition utoa (n : N) : string := utoa_go (N.to_nat (N.log2 n)) n "".

(** [strconv.Itoa] / [strconv.AppendInt(_, x, 10)]. *)
Definition itoa (x : Z) : string :=
  if x <? 0 then String "-" (utoa (Z.to_N (- x))) else utoa (Z.to_N x).

End Strconv.

(* ===================================================================== *)
(** ** GoTime: [time.Time.Format] *)
(* ===================================================================== *)

Module GoTime.
Import Bytes Strconv.

(** What [Format] reads off a [time.Time]: the civil date and clock of the
    instant in its location, and the zone in force ([Time.Zone]). *)
Record Time := mkTime {
  year : Z; month : Z; day : Z;
  hour : Z; minute : Z; second : Z;
  nanosecond : Z;
  weekday : Z;           (* Sunday = 0 *)
  yearday : Z;           (* 1 .. 366 *)
  zoneName : string;     (* abbreviation, possibly empty *)
  zoneOffset : Z         (* seconds east of UTC *)
}.

(** The layout elements of the reference time. *)
Inductive Std :=
| stdLongMonth | stdMonth | stdNumMonth | stdZeroMonth
| stdLongWeekDay | stdWeekDay
| stdDay | stdUnderDay | stdZeroDay | stdUnderYearDay | stdZeroYearDay
| stdHour | stdHour12 | stdZeroHour12
| stdMinute | stdZeroMinute | stdSecond | stdZeroSecond
| stdLongYear | stdYear | stdPM | stdpm | stdTZ
| stdISO8601TZ | stdISO8601SecondsTZ | stdISO8601ShortTZ
| stdISO8601ColonTZ | stdISO8601ColonSecondsTZ
| stdNumTZ | stdNumSecondsTz | stdNumShortTZ
| stdNumColonTZ | stdNumColonSecondsTZ
| stdFracSecond0 (digits : nat) (sep : ascii)
| stdFracSecond9 (digits : nat) (sep : ascii).

Definition startsWithLowerCase (s : string) : bool :=
  match s with
  | String c _ => in_range 97 122 c
  | "" => false
  end.

(** The first string of [alts] that [s] starts with, its element, and the
    rest of [s]. *)
Fixpoint first_prefix (alts : list (string * Std)) (s : string)
  : option (Std * string) :=
  match alts with
  | [] => None
  | (p, std) :: alts' =>
      match strip_prefix p s with
      | Some rest => Some (std, rest)
      | None => first_prefix alts' s
      end
  end.

(** The run of bytes equal to [ch] at the front of [s]: its length and what
    follows. *)
Fixpoint span_byte (ch : ascii) (s : string) : nat * string :=
  match s with
  | String c s' =>
      if byte_eqb c ch
      then let '(n, r) := span_byte ch s' in (S n, r)
      else (O, s)
  | "" => (O, "")
  end.

(** [,000] [.000] [,999] [.999]: [s] is the layout after the separator. *)
Definition fracChunk (sep : ascii) (s : string) : option (Std * string) :=
  match s with
  | String ch _ =>
      if byte_eqb ch "0" || byte_eqb ch "9" then
        let '(n, rest) := span_byte ch s in
        match rest with
        | String d _ =>
            if isDigit d then None
            else Some ((if byte_eqb ch "9" then stdFracSecond9 else stdFracSecond0)
                         (n mod 4096)%nat sep, rest)
        | "" => Some ((if byte_eqb ch "9" then stdFracSecond9 else stdFracSecond0)
                         (n mod 4096)%nat sep, rest)
        end
      else None
  | "" => None
  end.

(** The element that starts at the first byte of [layout], if any. *)
Definition stdChunkHere (layout : string) : option (Std * string) :=
  match layout with
  | "" => None
  | String c rest =>
      if byte_eqb c "J" then
        match strip_prefix "January" layout with
        | Some r => Some (stdLongMonth, r)
        | None =>
            match strip_prefix "Jan" layout with
            | Some r => if startsWithLowerCase r then None else Some (stdMonth, r)
            | None => None
            end
        end
      else if byte_eqb c "M" then
        match strip_prefix "Monday" layout with
        | Some r => Some (stdLongWeekDay, r)
        | None =>
            match strip_prefix "Mon" layout with
            | Some r => if startsWithLowerCase r then None else Some (stdWeekDay, r)
            | None => first_prefix [("MST", stdTZ)] layout
            end
        end
      else if byte_eqb c "0" then
        first_prefix [("01", stdZeroMonth); ("02", stdZeroDay);
                      ("03", stdZeroHour12); ("04", stdZeroMinute);
                      ("05", stdZeroSecond); ("06", stdYear);
                      ("002", stdZeroYearDay)] layout
      else if byte_eqb c "1" then
        match strip_prefix "15" layout with
        | Some r => Some (stdHour, r)
        | None => Some (stdNumMonth, rest)
        end
      else if byte_eqb c "2" then
        match strip_prefix "2006" layout with
        | Some r => Some (stdLongYear, r)
        | None => Some (stdDay, rest)
        end
      else if byte_eqb c "_" then
        match strip_prefix "_2" layout with
        | Some r =>
            (* _2006 is a literal _ followed by the long year *)
            match strip_prefix "_2006" layout with
            | Some _ => None
            | None => Some (stdUnderDay, r)
            end
        | None => first_prefix [("__2", stdUnderYearDay)] layout
        end
      else if byte_eqb c "3" then Some (stdHour12, rest)
      else if byte_eqb c "4" then Some (stdMinute, rest)
      else if byte_eqb c "5" then Some (stdSecond, rest)
      else if byte_eqb c "P" then first_prefix [("PM", stdPM)] layout
      else if byte_eqb c "p" then first_prefix [("pm", stdpm)] layout
      else if byte_eqb c "-" then
        first_prefix [("-070000", stdNumSecondsTz);
                      ("-07:00:00", stdNumColonSecondsTZ);
                      ("-0700", stdNumTZ); ("-07:00", stdNumColonTZ);
                      ("-07", stdNumShortTZ)] layout
      else if byte_eqb c "Z" then
        first_prefix [("Z070000", stdISO8601SecondsTZ);
                      ("Z07:00:00", stdISO8601ColonSecondsTZ);
                      ("Z0700", stdISO8601TZ); ("Z07:00", stdISO8601ColonTZ);
                      ("Z07", stdISO8601ShortTZ)] layout
      else if byte_eqb c "." || byte_eqb c "," then fracChunk c rest
      else None
  end.

(** [nextStdChunk]: the literal text before the first element of the
    layout, the element, and the layout after it. *)
Fixpoint nextStdChunk (layout : string) : string * option Std * string :=
  match layout with
  | "" => ("", None, "")
  | String c rest =>
      match stdChunkHere layout with
      | Some (std, suffix) => ("", Some std, suffix)
      | None =>
          let '(prefix, std, suffix) := nextStdChunk rest in
          (String c prefix, std, suffix)
      end
  end.

(** [appendInt]: decimal, zero-padded to [width], sign first. *)
Definition appendInt (x : Z) (width : nat) : string :=
  let ds := utoa (Z.to_N (Z.abs x)) in
  (if x <? 0 then "-" else "")
    ++ repeat_byte "0" (width - String.length ds) ++ ds.

Definition longMonthNames : list string :=
  ["January"; "February"; "March"; "April"; "May"; "June"; "July";
   "August"; "September"; "October"; "November"; "December"].

Definition longDayNames : list string :=
  ["Sunday"; "Monday"; "Tuesday"; "Wednesday"; "Thursday"; "Friday";
   "Saturday"].

Definition Month_String (m : Z) : string :=
  if (1 <=? m) && (m <=? 12)
  then nth (Z.to_nat (m - 1)) longMonthNames ""
  else "%!Month(" ++ itoa m ++ ")".

Definition Weekday_String (d : Z) : string :=
  if (0 <=? d) && (d <=? 6)
  then nth (Z.to_nat d) longDayNames ""
  else "%!Weekday(" ++ itoa d ++ ")".

(** Drop the zeros at the end. *)
Fixpoint trimZeros (s : string) : string :=
  match s with
  | "" => ""
  | String c s' =>
      match trimZeros s' with
      | "" => if byte_eqb c "0" then "" else String c ""
      | r => String c r
      end
  end.

(** [appendNano]: the fractional second, [n] digits after [sep]. *)
Definition appendNano (nanosec : Z) (n : nat) (sep : ascii) (trim : bool)
  : string :=
  if trim && ((n =? 0)%nat || (nanosec =? 0)) then ""
  else
    let d9 := appendInt nanosec 9 in
    let ds := if (n <? 9)%nat then take n d9 else d9 in
    if trim then
      match trimZeros ds with
      | "" => ""
      | r => String sep r
      end
    else String sep ds.

Definition isISO8601 (std : Std) : bool :=
  match std with
  | stdISO8601TZ | stdISO8601ColonTZ | stdISO8601SecondsTZ
  | stdISO8601ShortTZ | stdISO8601ColonSecondsTZ => true
  | _ => false
  end.

Definition hasColon (std : Std) : bool :=
  match std with
  | stdISO8601ColonTZ | stdNumColonTZ
  | stdISO8601ColonSecondsTZ | stdNumColonSecondsTZ => true
  | _ => false
  end.

Definition isShortTZ (std : Std) : bool :=
  match std with
  | stdNumShortTZ | stdISO8601ShortTZ => true
  | _ => false
  end.

Definition hasSeconds (std : Std) : bool :=
  match std with
  | stdISO8601SecondsTZ | stdNumSecondsTz
  | stdNumColonSecondsTZ | stdISO8601ColonSecondsTZ => true
  | _ => false
  end.

(** The numeric zone elements.  Go's [/] and [%] truncate toward zero,
    hence [Z.quot] and [Z.rem]. *)
Definition appendZone (std : Std) (offset : Z) : string :=
  if (offset =? 0) && isISO8601 std then "Z"
  else
    let zone0 := Z.quot offset 60 in
    let neg := zone0 <? 0 in
    let zone := if neg then - zone0 else zone0 in
    let absoffset := if neg then - offset else offset in
    (if neg then "-" else "+")
      ++ appendInt (Z.quot zone 60) 2
      ++ (if hasColon std then ":" else "")
      ++ (if isShortTZ std then "" else appendInt (Z.rem zone 60) 2)
      ++ (if hasSeconds std
          then (if hasColon std then ":" else "")
                 ++ appendInt (Z.rem absoffset 60) 2
          else "").

Definition hour12 (h : Z) : Z :=
  let hr := Z.rem h 12 in if hr =? 0 then 12 else hr.

(** One element of the layout, rendered for [t]: the body of the [switch]
    in [appendFormat]. *)
Definition appendStd (std : Std) (t : Time) : string :=
  match std with
  | stdYear =>
      let y := if year t <? 0 then - year t else year t in
      appendInt (Z.rem y 100) 2
  | stdLongYear => appendInt (year t) 4
  | stdMonth => take 3 (Month_String (month t))
  | stdLongMonth => Month_String (month t)
  | stdNumMonth => appendInt (month t) 0
  | stdZeroMonth => appendInt (month t) 2
  | stdWeekDay => take 3 (Weekday_String (weekday t))
  | stdLongWeekDay => Weekday_String (weekday t)
  | stdDay => appendInt (day t) 0
  | stdUnderDay => (if day t <? 10 then " " else "") ++ appendInt (day t) 0
  | stdZeroDay => appendInt (day t) 2
  | stdUnderYearDay =>
      (if yearday t <? 100
       then " " ++ (if yearday t <? 10 then " " else "")
       else "") ++ appendInt (yearday t) 0
  | stdZeroYearDay => appendInt (yearday t) 3
  | stdHour => appendInt (hour t) 2
  | stdHour12 => appendInt (hour12 (hour t)) 0
  | stdZeroHour12 => appendInt (hour12 (hour t)) 2
  | stdMinute => appendInt (minute t) 0
  | stdZeroMinute => appendInt (minute t) 2
  | stdSecond => appendInt (second t) 0
  | stdZeroSecond => appendInt (second t) 2
  | stdPM => if hour t >=? 12 then "PM" else "AM"
  | stdpm => if hour t >=? 12 then "pm" else "am"
  | stdTZ =>
      match zoneName t with
      | "" =>
          (* no abbreviation known: the -0700 form *)
          let zone0 := Z.quot (zoneOffset t) 60 in
          let neg := zone0 <? 0 in
          let zone := if neg then - zone0 else zone0 in
          (if neg then "-" else "+")
            ++ appendInt (Z.quot zone 60) 2 ++ appendInt (Z.rem zone 60) 2
      | name => name
      end
  | stdFracSecond0 n sep => appendNano (nanosecond t) n sep false
  | stdFracSecond9 n sep => appendNano (nanosecond t) n sep true
  | _ => appendZone std (zoneOffset t)
  end.

(** The loop of [appendFormat].  Each round consumes at least one byte of
    the layout, so [String.length layout] rounds always reach its end. *)
Fixpoint appendFormat (rounds : nat) (layout : string) (t : Time) : string :=
  match rounds with
  | O => ""
  | S k =>
      match layout with
      | "" => ""
      | _ =>
          let '(prefix, std, suffix) := nextStdChunk layout in
          prefix ++
            match std with
            | None => ""
            | Some e => appendStd e t ++ appendFormat k suffix t
            end
      end
  end.

(** [t.Format(layout)]. *)
Definition Format (t : Time) (layout : string) : string :=
  appendFormat (String.length layout) layout t.

End GoTime.

(* ===================================================================== *)
(** ** UTF-8, as package [unicode/utf8] reads and writes it *)
(* ===================================================================== *)

Module Utf8.
Import Bytes.

Definition RuneError : N := 0xFFFD.

(** The table [first] together with [acceptRanges]: for a leading byte, the
    length of the sequence and the range the second byte must lie in. *)
Definition first (b : N) : option (nat * N * N) :=
  (if (0xC2 <=? b) && (b <=? 0xDF) then Some (2%nat, 0x80, 0xBF)
   else if b =? 0xE0 then Some (3%nat, 0xA0, 0xBF)
   else if (0xE1 <=? b) && (b <=? 0xEC) then Some (3%nat, 0x80, 0xBF)
   else if b =? 0xED then Some (3%nat, 0x80, 0x9F)
   else if (0xEE <=? b) && (b <=? 0xEF) then Some (3%nat, 0x80, 0xBF)
   else if b =? 0xF0 then Some (4%nat, 0x90, 0xBF)
   else if (0xF1 <=? b) && (b <=? 0xF3) then Some (4%nat, 0x80, 0xBF)
   else if b =? 0xF4 then Some (4%nat, 0x80, 0x8F)
   else None)%N.

(** A continuation byte: [locb <= c <= hicb]. *)
Definition cont (c : ascii) : bool := in_range 0x80 0xBF c.

Definition low6 (c : ascii) : N := N.land (byte_val c) 0x3F.

(** [utf8.DecodeRuneInString]: the first rune of [s] and its width; an
    encoding error gives [(RuneError, 1)]. *)
Definition DecodeRuneInString (s : string) : N * nat :=
  match s with
  | "" => (RuneError, 0%nat)
  | String c0 t0 =>
      let s0 := byte_val c0 in
      if (s0 <? 0x80)%N then (s0, 1%nat)
      else
        match first s0 with
        | None => (RuneError, 1%nat)
        | Some (sz, lo, hi) =>
            match t0 with
            | String c1 t1 =>
                if negb (in_range lo hi c1) then (RuneError, 1%nat)
                else if (sz <=? 2)%nat then
                  (N.lor (N.shiftl (N.land s0 0x1F) 6) (low6 c1), 2%nat)
                else
                  match t1 with
                  | String c2 t2 =>
                      if negb (cont c2) then (RuneError, 1%nat)
                      else if (sz <=? 3)%nat then
                        (N.lor (N.shiftl (N.land s0 0x0F) 12)
                           (N.lor (N.shiftl (low6 c1) 6) (low6 c2)), 3%nat)
                      else
                        match t2 with
                        | String c3 _ =>
                            if negb (cont c3) then (RuneError, 1%nat)
                            else
                              (N.lor (N.shiftl (N.land s0 0x07) 18)
                                 (N.lor (N.shiftl (low6 c1) 12)
                                    (N.lor (N.shiftl (low6 c2) 6) (low6 c3))),
                               4%nat)
                        | "" => (RuneError, 1%nat)
                        end
                  | "" => (RuneError, 1%nat)
                  end
            | "" => (RuneError, 1%nat)
            end
        end
  end.

Definition tx (r : N) (shift : N) : ascii :=
  byte_of (N.lor 0x80 (N.land (N.shiftr r shift) 0x3F)).

(** [utf8.AppendRune]: surrogates and values past U+10FFFF are written as
    U+FFFD. *)
Definition EncodeRune (r : N) : string :=
  (if r <? 0x80 then String (byte_of r) ""
   else if r <? 0x800 then
     String (byte_of (N.lor 0xC0 (N.shiftr r 6))) (String (tx r 0) "")
   else if (0x10FFFF <? r) || ((0xD800 <=? r) && (r <=? 0xDFFF)) then
     String (byte_of 0xEF) (String (byte_of 0xBF) (String (byte_of 0xBD) ""))
   else if r <? 0x10000 then
     String (byte_of (N.lor 0xE0 (N.shiftr r 12)))
       (String (tx r 6) (String (tx r 0) ""))
   else
     String (byte_of (N.lor 0xF0 (N.shiftr r 18)))
       (String (tx r 12) (String (tx r 6) (String (tx r 0) ""))))%N.

(** The state of a left-to-right scan that steps over whole runes: [skip]
    is the number of bytes still belonging to the rune met last. *)
Inductive RuneAt :=
| Inside                      (* a later byte of a rune already seen *)
| Single (c : ascii)          (* a byte below 0x80 *)
| Invalid                     (* a byte that starts no valid encoding *)
| Rune (r : N) (size : nat) (bytes : string).

Definition classify (skip : nat) (s : string) : RuneAt :=
  match skip, s with
  | S _, _ => Inside
  | O, "" => Inside
  | O, String c _ =>
      if (byte_val c <? 0x80)%N then Single c
      else
        let '(r, size) := DecodeRuneInString s in
        if (r =? RuneError)%N && (size =? 1)%nat then Invalid
        else Rune r size (take size s)
  end.

Definition next_skip (skip : nat) (at_ : RuneAt) : nat :=
  match at_ with
  | Inside => Nat.pred skip
  | Rune _ size _ => Nat.pred size
  | _ => O
  end.

(** The string with every byte that is not part of a valid encoding
    replaced by U+FFFD ([strings.ToValidUTF8] with one replacement per
    byte); valid text is left as it is. *)
Fixpoint coerce_go (skip : nat) (s : string) : string :=
  match s with
  | "" => ""
  | String _ s' =>
      let a := classify skip s in
      (match a with
       | Inside => ""
       | Single c => String c ""
       | Invalid => EncodeRune RuneError
       | Rune _ _ bytes => bytes
       end) ++ coerce_go (next_skip skip a) s'
  end.

Definition coerce (s : string) : string := coerce_go 0 s.

(** [utf8.ValidString]. *)
Fixpoint valid_go (skip : nat) (s : string) : bool :=
  match s with
  | "" => true
  | String _ s' =>
      let a := classify skip s in
      (match a with Invalid => false | _ => true end)
        && valid_go (next_skip skip a) s'
  end.

Definition ValidString (s : string) : bool := valid_go 0 s.

End Utf8.

(* ===================================================================== *)
(** ** JSON: [encoding/json.Marshal] and a reader of JSON texts *)
(* ===================================================================== *)

Module JSON.
Import Bytes Strconv Utf8.

(** What an [interface{}] stored in a field can hold, as far as the encoder
    tells values apart: the kinds it writes, and two kinds it refuses.  A
    nested map is given by its entries in the order of their keys, the
    order they are written in.  Floating-point numbers and structs are left
    out. *)
#[warnings="-register-all"]
Inductive Value :=
| VNil                                   (* the nil interface *)
| VBool (b : bool)
| VInt (n : Z)                           (* any integer kind *)
| VString (s : string)
| VSlice (vs : list Value)               (* a non-nil []interface{} *)
| VMap (kvs : list (string * Value))     (* a non-nil map[string]interface{} *)
| VUnsupported (typ : string)            (* chan, func, complex: type [typ] *)
| VMarshalerError (typ msg : string).    (* MarshalJSON of [typ] fails with [msg] *)

Inductive result (A : Type) :=
| Ok (a : A)
| Err (e : string).
Arguments Ok {A} a.
Arguments Err {A} e.

Definition hex : string := "0123456789abcdef".

Definition hexDigit (d : N) : ascii :=
  match String.get (N.to_nat d) hex with
  | Some c => c
  | None => "0"%char
  end.

(** [htmlSafeSet]: the bytes below 0x80 that need no escaping when HTML
    escaping is on. *)
Definition htmlSafe (c : ascii) : bool :=
  let b := byte_val c in
  ((0x20 <=? b) && negb (b =? 0x22) && negb (b =? 0x26) && negb (b =? 0x3C)
     && negb (b =? 0x3E) && negb (b =? 0x5C))%N.

(** The escape written for a byte below 0x80 that is not [htmlSafe]. *)
Definition escapeByte (c : ascii) : string :=
  let b := byte_val c in
  (if (b =? 0x5C) || (b =? 0x22) then String "\" (String c "")
   else if b =? 0x08 then "\b"
   else if b =? 0x0C then "\f"
   else if b =? 0x0A then "\n"
   else if b =? 0x0D then "\r"
   else if b =? 0x09 then "\t"
   else "\u00" ++ String (hexDigit (N.shiftr b 4))
                    (String (hexDigit (N.land b 0xF)) ""))%N.

(** The loop of [appendString] with [escapeHTML] set, as of Go 1.22 (where
    backspace and form feed have their short escapes).  [skip] counts the
    bytes of the current rune still to be stepped over ([i += size]). *)
Fixpoint appendString_go (skip : nat) (s : string) : string :=
  match s with
  | "" => ""
  | String _ s' =>
      let a := classify skip s in
      (match a with
       | Inside => ""
       | Single c => if htmlSafe c then String c "" else escapeByte c
       | Invalid => "\ufffd"
       | Rune r _ bytes =>
           if ((r =? 0x2028) || (r =? 0x2029))%N
           then "\u202" ++ String (hexDigit (N.land r 0xF)) ""
           else bytes
       end) ++ appendString_go (next_skip skip a) s'
  end.

Definition appendString (s : string) : string :=
  quote ++ appendString_go 0 s ++ quote.

Section encode.
Variable enc : Value -> result string.

(** The elements of an array, comma separated. *)
Fixpoint encodeElems (vs : list Value) : result string :=
  match vs with
  | [] => Ok ""
  | v :: vs' =>
      match enc v with
      | Err e => Err e
      | Ok o =>
          match vs' with
          | [] => Ok o
          | _ =>
              match encodeElems vs' with
              | Err e => Err e
              | Ok r => Ok (o ++ "," ++ r)
              end
          end
      end
  end.

(** The members of an object, in the order given. *)
Fixpoint encodeMembers (kvs : list (string * Value)) : result string :=
  match kvs with
  | [] => Ok ""
  | (k, v) :: kvs' =>
      match enc v with
      | Err e => Err e
      | Ok o =>
          match kvs' with
          | [] => Ok (appendString k ++ ":" ++ o)
          | _ =>
              match encodeMembers kvs' with
              | Err e => Err e
              | Ok r => Ok (appendString k ++ ":" ++ o ++ "," ++ r)
              end
          end
      end
  end.
End encode.

(** The encoder chosen by the dynamic type of the value. *)
Fixpoint encode (v : Value) : result string :=
  match v with
  | VNil => Ok "null"
  | VBool b => Ok (if b then "true" else "false")
  | VInt n => Ok (itoa n)
  | VString s => Ok (appendString s)
  | VSlice vs =>
      match encodeElems encode vs with
      | Ok body => Ok ("[" ++ body ++ "]")
      | Err e => Err e
      end
  | VMap kvs =>
      match encodeMembers encode kvs with
      | Ok body => Ok ("{" ++ body ++ "}")
      | Err e => Err e
      end
  | VUnsupported typ => Err ("json: unsupported type: " ++ typ)
  | VMarshalerError typ msg =>
      Err ("json: error calling MarshalJSON for type " ++ typ ++ ": " ++ msg)
  end.

(** Map keys are written in increasing byte order ([strings.Compare]). *)
Definition key_le (a b : string * Value) : Prop :=
  String.leb a.1 b.1 = true.

#[global] Instance key_le_dec : RelDecision key_le.
Proof. intros a b. unfold key_le. apply _. Defined.

Definition sortedEntries (m : gmap string Value) : list (string * Value) :=
  merge_sort key_le (map_to_list m).

(** [json.Marshal] of a non-nil [map[string]interface{}]: the map encoder
    on the entries, sorted. *)
Definition Marshal (m : gmap string Value) : result string :=
  encode (VMap (sortedEntries m)).


(** *** Reading JSON (RFC 8259)

    The reader is the yardstick for what an emitted line means: a text is
    a JSON text when [parse] accepts it, and it then stands for the tree
    [parse] returns.  Escapes are decoded the way [json.Unmarshal] decodes
    them, and numbers are kept as written.  A byte at or above 0x80 is kept
    as it is: on valid UTF-8 that is what [json.Unmarshal] reads, and what
    a string stands for is only ever asked of valid UTF-8 (the output of
    [json.Marshal] is, and other text is required to be). *)

#[warnings="-register-all"]
Inductive JValue :=
| JNull
| JBool (b : bool)
| JNumber (lit : string)
| JString (s : string)
| JArray (vs : list JValue)
| JObject (kvs : list (string * JValue)).

Definition byte_is (c : ascii) (b : N) : bool := (byte_val c =? b)%N.

Definition isSpace (c : ascii) : bool :=
  byte_is c 0x20 || byte_is c 0x09 || byte_is c 0x0A || byte_is c 0x0D.

Fixpoint skip_ws (s : string) : string :=
  match s with
  | String c s' => if isSpace c then skip_ws s' else s
  | "" => ""
  end.

Definition hexVal (c : ascii) : option N :=
  let b := byte_val c in
  (if (48 <=? b) && (b <=? 57) then Some (b - 48)
   else if (97 <=? b) && (b <=? 102) then Some (b - 87)
   else if (65 <=? b) && (b <=? 70) then Some (b - 55)
   else None)%N.

Definition hex4 (h1 h2 h3 h4 : ascii) : option N :=
  match hexVal h1, hexVal h2, hexVal h3, hexVal h4 with
  | Some a, Some b, Some c, Some d => Some (((a * 16 + b) * 16 + c) * 16 + d)%N
  | _, _, _, _ => None
  end.

(** The character a one-letter escape stands for. *)
Definition unescape (e : ascii) : option ascii :=
  if byte_is e 0x22 || byte_is e 0x5C || byte_is e 0x2F then Some e
  else if byte_is e 0x62 then Some (byte_of 0x08)
  else if byte_is e 0x66 then Some (byte_of 0x0C)
  else if byte_is e 0x6E then Some (byte_of 0x0A)
  else if byte_is e 0x72 then Some (byte_of 0x0D)
  else if byte_is e 0x74 then Some (byte_of 0x09)
  else None.

Definition isHighSurrogate (r : N) : bool := ((0xD800 <=? r) && (r <? 0xDC00))%N.
Definition isLowSurrogate (r : N) : bool := ((0xDC00 <=? r) && (r <? 0xE000))%N.

Definition prepend (p : string) (r : option (string * string))
  : option (string * string) :=
  match r with
  | Some (t, rest) => Some (p ++ t, rest)
  | None => None
  end.

(** The characters of a string up to its closing quote, with the escapes
    decoded and the other bytes as they are, and the text after the
    quote. *)
Fixpoint parse_chars (s : string) : option (string * string) :=
  match s with
  | "" => None
  | String c s1 =>
      if byte_is c 0x22 then Some ("", s1)
      else if byte_is c 0x5C then
        match s1 with
        | "" => None
        | String e s2 =>
            if byte_is e 0x75 then
              match s2 with
              | String h1 (String h2 (String h3 (String h4 s6))) =>
                  match hex4 h1 h2 h3 h4 with
                  | None => None
                  | Some r =>
                      match s6 with
                      | String b1 (String u1 (String g1 (String g2
                          (String g3 (String g4 s12))))) =>
                          match hex4 g1 g2 g3 g4 with
                          | Some r2 =>
                              if isHighSurrogate r && byte_is b1 0x5C && byte_is u1 0x75
                                 && isLowSurrogate r2
                              then prepend
                                     (EncodeRune
                                        (0x10000 + (r - 0xD800) * 0x400
                                           + (r2 - 0xDC00))%N)
                                     (parse_chars s12)
                              else prepend (EncodeRune r) (parse_chars s6)
                          | None => prepend (EncodeRune r) (parse_chars s6)
                          end
                      | _ => prepend (EncodeRune r) (parse_chars s6)
                      end
                  end
              | _ => None
              end
            else
              match unescape e with
              | Some d => prepend (String d "") (parse_chars s2)
              | None => None
              end
        end
      else if (byte_val c <? 0x20)%N then None
      else prepend (String c "") (parse_chars s1)
  end.

Fixpoint span_digits (s : string) : string * string :=
  match s with
  | String c s' =>
      if isDigit c
      then let '(ds, r) := span_digits s' in (String c ds, r)
      else ("", s)
  | "" => ("", "")
  end.

(** One or more digits. *)
Definition digits1 (s : string) : option (string * string) :=
  match span_digits s with
  | ("", _) => None
  | (ds, r) => Some (ds, r)
  end.

(** [int]: a zero, or a non-zero digit followed by digits. *)
Definition scan_int (s : string) : option (string * string) :=
  match s with
  | String d r =>
      if byte_is d 48 then Some ("0", r)
      else if isDigit d then
        let '(ds, r') := span_digits r in Some (String d ds, r')
      else None
  | "" => None
  end.

Definition scan_frac (s : string) : option (string * string) :=
  match s with
  | String c r =>
      if byte_is c 0x2E then prepend "." (digits1 r) else Some ("", s)
  | "" => Some ("", s)
  end.

Definition scan_exp (s : string) : option (string * string) :=
  match s with
  | String c r =>
      if byte_is c 0x65 || byte_is c 0x45 then
        match r with
        | String sg r' =>
            if byte_is sg 0x2B || byte_is sg 0x2D
            then prepend (String c (String sg "")) (digits1 r')
            else prepend (String c "") (digits1 r)
        | "" => None
        end
      else Some ("", s)
  | "" => Some ("", s)
  end.

(** [number = [ minus ] int [ frac ] [ exp ]]: the literal and the rest. *)
Definition scan_number (s : string) : option (string * string) :=
  let '(sign, s0) :=
    match s with
    | String c r => if byte_is c 0x2D then ("-", r) else ("", s)
    | "" => ("", s)
    end in
  match scan_int s0 with
  | None => None
  | Some (i, s1) =>
      match scan_frac s1 with
      | None => None
      | Some (f, s2) =>
          match scan_exp s2 with
          | None => None
          | Some (e, s3) => Some (sign ++ i ++ f ++ e, s3)
          end
      end
  end.

Definition with_rest {A B} (f : A -> B) (r : option (A * string))
  : option (B * string) :=
  match r with
  | Some (a, rest) => Some (f a, rest)
  | None => None
  end.

(** Recursive descent.  [fuel] bounds the number of nested calls; a call
    chain spends at most two units per byte read. *)
Fixpoint parse_value (fuel : nat) (s : string) : option (JValue * string) :=
  match fuel with
  | O => None
  | S f =>
      match skip_ws s with
      | "" => None
      | String c r as s0 =>
          if byte_is c 0x7B then
            match skip_ws r with
            | "" => None
            | String c2 r2 as s1 =>
                if byte_is c2 0x7D then Some (JObject [], r2)
                else with_rest JObject (parse_members f s1)
            end
          else if byte_is c 0x5B then
            match skip_ws r with
            | "" => None
            | String c2 r2 as s1 =>
                if byte_is c2 0x5D then Some (JArray [], r2)
                else with_rest JArray (parse_elems f s1)
            end
          else if byte_is c 0x22 then with_rest JString (parse_chars r)
          else if byte_is c 0x74 then
            with_rest (fun _ => JBool true) (option_map (pair tt) (strip_prefix "true" s0))
          else if byte_is c 0x66 then
            with_rest (fun _ => JBool false) (option_map (pair tt) (strip_prefix "false" s0))
          else if byte_is c 0x6E then
            with_rest (fun _ => JNull) (option_map (pair tt) (strip_prefix "null" s0))
          else with_rest JNumber (scan_number s0)
      end
  end
with parse_elems (fuel : nat) (s : string) : option (list JValue * string) :=
  match fuel with
  | O => None
  | S f =>
      match parse_value f s with
      | None => None
      | Some (v, r) =>
          match skip_ws r with
          | "" => None
          | String c r2 =>
              if byte_is c 0x2C then with_rest (cons v) (parse_elems f r2)
              else if byte_is c 0x5D then Some ([v], r2)
              else None
          end
      end
  end
with parse_members (fuel : nat) (s : string)
  : option (list (string * JValue) * string) :=
  match fuel with
  | O => None
  | S f =>
      match skip_ws s with
      | "" => None
      | String q r =>
          if byte_is q 0x22 then
            match parse_chars r with
            | None => None
            | Some (k, r1) =>
                match skip_ws r1 with
                | "" => None
                | String col r2 =>
                    if byte_is col 0x3A then
                      match parse_value f r2 with
                      | None => None
                      | Some (v, r3) =>
                          match skip_ws r3 with
                          | "" => None
                          | String c r4 =>
                              if byte_is c 0x2C
                              then with_rest (cons (k, v)) (parse_members f r4)
                              else if byte_is c 0x7D then Some ([(k, v)], r4)
                              else None
                          end
                      end
                    else None
                end
            end
          else None
      end
  end.

(** A whole text: one value, with nothing but white space around it. *)
Definition parse (s : string) : option JValue :=
  match parse_value (2 * String.length s + 2) s with
  | Some (v, rest) =>
      match skip_ws rest with
      | "" => Some v
      | _ => None
      end
  | None => None
  end.

(** The tree a value is read back as after encoding. *)
Fixpoint toJ (v : Value) : JValue :=
  match v with
  | VNil => JNull
  | VBool b => JBool b
  | VInt n => JNumber (itoa n)
  | VString s => JString (coerce s)
  | VSlice vs => JArray (map toJ vs)
  | VMap kvs => JObject (map (fun kv => (coerce kv.1, toJ kv.2)) kvs)
  | VUnsupported _ | VMarshalerError _ _ => JNull
  end.

(** The value of the first member called [k]. *)
Fixpoint member (k : string) (kvs : list (string * JValue)) : option JValue :=
  match kvs with
  | [] => None
  | (k', v) :: kvs' => if String.eqb k k' then Some v else member k kvs'
  end.

End JSON.

(* ===================================================================== *)
(** ** Package [logger] *)
(* ===================================================================== *)

Module logger.
Import Bytes GoTime JSON.

(** [type LogLevel int]: only ever compared, never computed with. *)
Definition LogLevel := Z.

Definition LevelDebug : LogLevel := 0.
Definition LevelInfo : LogLevel := 1.
Definition LevelWarn : LogLevel := 2.
Definition LevelError : LogLevel := 3.
Definition LevelFatal : LogLevel := 4.
Definition LevelPanic : LogLevel := 5.

Definition levelNames : gmap Z string :=
  <[LevelDebug := "DEBUG"]> (<[LevelInfo := "INFO"]> (<[LevelWarn := "WARN"]>
    (<[LevelError := "ERROR"]> (<[LevelFatal := "FATAL"]>
      (<[LevelPanic := "PANIC"]> ∅))))).

Definition LogLevel_String (l : LogLevel) : string :=
  match levelNames !! l with
  | Some name => name
  | None => "UNKNOWN"
  end.

(** [type Fields map[string]interface{}] *)
Abbreviation Fields := (gmap string Value).

(** Pointers are handles; the handle that holds nothing is the nil
    pointer. *)
Definition loc := nat.

(** A value of the interface [io.Writer]: the nil interface, which [New]
    and [SetOutput] take like any other, or a writer that is there, named
    by its handle.  [Write] on a writer that is there returns. *)
Inductive Writer :=
| NilWriter
| Sink (h : nat).

#[global] Instance Writer_eq_dec : EqDecision Writer.
Proof. solve_decision. Defined.

Definition os_Stdout : Writer := Sink 1.

(** The struct, without its mutex: the model runs one call at a time. *)
Record Logger := mkLogger {
  level : LogLevel;
  logger : loc;                (* *log.Logger *)
  fields : Fields;
  output : Writer;
  timeFormat : string
}.

(** A [log.Logger] of the standard library. *)
Record StdLogger := mkStdLogger {
  std_out : Writer;
  std_prefix : string;
  std_flags : Z
}.

Definition log_LstdFlags : Z := 3.    (* Ldate | Ltime *)

(** The state a program of the package runs in: the two heaps, every
    [Write] made so far (oldest first), and the wall clock, of which
    [ticks] readings have been taken. *)
Record World := mkWorld {
  loggers : gmap loc Logger;
  stdloggers : gmap loc StdLogger;
  written : list (Writer * string);
  clock : nat -> Time;
  ticks : nat
}.

Inductive PanicValue :=
| PanicString (s : string)
| NilDereference.               (* invalid memory address or nil pointer dereference *)

(** How a call ends. *)
Inductive Outcome (A : Type) :=
| Return (a : A)
| Exit (code : Z)               (* os.Exit *)
| Panicked (v : PanicValue).
Arguments Return {A} a.
Arguments Exit {A} code.
Arguments Panicked {A} v.

Definition M (A : Type) : Type := World -> Outcome A * World.

Definition ret {A} (a : A) : M A := fun w => (Return a, w).

Definition bind {A B} (m : M A) (k : A -> M B) : M B :=
  fun w =>
    match m w with
    | (Return a, w') => k a w'
    | (Exit c, w') => (Exit c, w')
    | (Panicked v, w') => (Panicked v, w')
    end.

#[global] Instance M_ret : MRet M := @ret.
#[global] Instance M_bind : MBind M := fun A B k m => bind m k.

Definition os_Exit {A} (code : Z) : M A := fun w => (Exit code, w).
Definition panic {A} (v : PanicValue) : M A := fun w => (Panicked v, w).

(** [*l] *)
Definition deref (l : loc) : M Logger :=
  fun w =>
    match loggers w !! l with
    | Some r => (Return r, w)
    | None => (Panicked NilDereference, w)
    end.

(** [*l = r] *)
Definition assign (l : loc) (r : Logger) : M unit :=
  fun w => (Return tt,
            mkWorld (<[l := r]> (loggers w)) (stdloggers w) (written w)
              (clock w) (ticks w)).

(** [&Logger{...}] *)
Definition alloc (r : Logger) : M loc :=
  fun w =>
    let l := fresh (dom (loggers w)) in
    (Return l,
     mkWorld (<[l := r]> (loggers w)) (stdloggers w) (written w)
       (clock w) (ticks w)).

(** [log.New] *)
Definition log_New (out : Writer) (prefix : string) (flag : Z) : M loc :=
  fun w =>
    let l := fresh (dom (stdloggers w)) in
    (Return l,
     mkWorld (loggers w) (<[l := mkStdLogger out prefix flag]> (stdloggers w))
       (written w) (clock w) (ticks w)).

(** [SetOutput] of a [log.Logger] *)
Definition log_SetOutput (l : loc) (out : Writer) : M unit :=
  fun w =>
    match stdloggers w !! l with
    | Some s =>
        (Return tt,
         mkWorld (loggers w)
           (<[l := mkStdLogger out (std_prefix s) (std_flags s)]> (stdloggers w))
           (written w) (clock w) (ticks w))
    | None => (Panicked NilDereference, w)
    end.

(** [time.Now()] *)
Definition time_Now : M Time :=
  fun w =>
    (Return (clock w (ticks w)),
     mkWorld (loggers w) (stdloggers w) (written w) (clock w) (S (ticks w))).

Definition newline : string := String (byte_of 10) "".

(** [fmt.Fprintln(w, s)]: the text and a newline are formatted and handed
    to [w.Write] in one call.  On the nil interface that call is a nil
    dereference and nothing is written; what a writer that is there answers
    is dropped. *)
Definition fmt_Fprintln (out : Writer) (s : string) : M unit :=
  fun w =>
    match out with
    | NilWriter => (Panicked NilDereference, w)
    | Sink _ =>
        (Return tt,
         mkWorld (loggers w) (stdloggers w)
           (app (written w) [(out, s ++ newline)]) (clock w) (ticks w))
    end.

(** [fmt.Sprintf] for the verb [%s] over string operands, and [%%]; the
    other verbs do not occur in this package. *)
Fixpoint fmt_Sprintf (format : string) (args : list string) : string :=
  match format with
  | "" => ""
  | String c rest =>
      if byte_eqb c "%" then
        match rest with
        | String v rest' =>
            if byte_eqb v "s" then
              match args with
              | a :: args' => a ++ fmt_Sprintf rest' args'
              | [] => "%!s(MISSING)" ++ fmt_Sprintf rest' []
              end
            else if byte_eqb v "%" then String "%" (fmt_Sprintf rest' args)
            else String c (fmt_Sprintf rest args)
        | "" => "%!(NOVERB)"
        end
      else String c (fmt_Sprintf rest args)
  end.

(** [for k, v := range src { dst[k] = v }] *)
Definition range_assign (src dst : Fields) : Fields :=
  map_fold (fun k v acc => <[k := v]> acc) dst src.

(** New creates a new logger instance with the specified output
    destination. *)
Definition New (output : Writer) : M loc :=
  lg ← log_New output "" log_LstdFlags;
  alloc {| level := LevelInfo;
           logger := lg;
           output := output;
           timeFormat := "2006-01-02 15:04:05";
           fields := ∅ |}.

Module Logger.

Definition SetLevel (l : loc) (level' : LogLevel) : M loc :=
  r ← deref l;
  assign l (mkLogger level' (logger r) (fields r) (output r) (timeFormat r));;
  ret l.

Definition SetOutput (l : loc) (output' : Writer) : M loc :=
  r ← deref l;
  assign l (mkLogger (level r) (logger r) (fields r) output' (timeFormat r));;
  log_SetOutput (logger r) output';;
  ret l.

Definition SetTimeFormat (l : loc) (format : string) : M loc :=
  r ← deref l;
  assign l (mkLogger (level r) (logger r) (fields r) (output r) format);;
  ret l.

Definition clone (l : loc) : M loc :=
  r ← deref l;
  let fields' := range_assign (fields r) ∅ in
  alloc {| level := level r;
           logger := logger r;
           output := output r;
           timeFormat := timeFormat r;
           fields := fields' |}.

(** [newLogger.fields[key] = value] *)
Definition set_field (l : loc) (key : string) (value : Value) : M unit :=
  r ← deref l;
  assign l (mkLogger (level r) (logger r) (<[key := value]> (fields r))
              (output r) (timeFormat r)).

(** Taking the lock, [l.mu.Lock()], is the first use of [l]. *)
Definition AddField (l : loc) (key : string) (value : Value) : M loc :=
  _ ← deref l;
  newLogger ← clone l;
  set_field newLogger key value;;
  ret newLogger.

Definition AddFields (l : loc) (fields' : Fields) : M loc :=
  _ ← deref l;
  newLogger ← clone l;
  n ← deref newLogger;
  assign newLogger
    (mkLogger (level n) (logger n) (range_assign fields' (fields n))
       (output n) (timeFormat n));;
  ret newLogger.

(** The format string of the fallback line, quotes and all. *)
Definition fallback_format : string :=
  "{" ++ quoted "level" ++ ": " ++ quoted "ERROR" ++ ","
    ++ quoted "message" ++ ": " ++ quoted "Failed to marshal log entry" ++ ","
    ++ quoted "error" ++ ": " ++ quoted "%s" ++ ","
    ++ quoted "time" ++ ": " ++ quoted "%s" ++ "}".

Definition log (l : loc) (lvl : LogLevel) (msg : string) : M unit :=
  r ← deref l;
  if lvl <? level r then ret tt
  else
    now ← time_Now;
    let entry : Fields :=
      <["time" := VString (Format now (timeFormat r))]>
        (<["message" := VString msg]>
           (<["level" := VString (LogLevel_String lvl)]> ∅)) in
    let entry := range_assign (fields r) entry in
    match Marshal entry with
    | Err err =>
        now' ← time_Now;
        let logMsg :=
          fmt_Sprintf fallback_format [err; Format now' (timeFormat r)] in
        fmt_Fprintln (output r) logMsg
    | Ok jsonData => fmt_Fprintln (output r) jsonData
    end.

Definition Debug (l : loc) (msg : string) : M unit := log l LevelDebug msg.
Definition Info (l : loc) (msg : string) : M unit := log l LevelInfo msg.
Definition Warn (l : loc) (msg : string) : M unit := log l LevelWarn msg.
Definition Error (l : loc) (msg : string) : M unit := log l LevelError msg.

Definition Fatal (l : loc) (msg : string) : M unit :=
  log l LevelFatal msg ;; os_Exit 1.

Definition Panic (l : loc) (msg : string) : M unit :=
  log l LevelPanic msg ;; panic (PanicString msg).

End Logger.

(** The world before package initialisation. *)
Definition empty_world (c : nat -> Time) : World :=
  mkWorld ∅ ∅ [] c 0%nat.

(** [var defaultLogger = New(os.Stdout)], run when the package is loaded. *)
Definition init_world (c : nat -> Time) : World :=
  (New os_Stdout (empty_world c)).2.

Definition defaultLogger : loc :=
  match (New os_Stdout (empty_world (fun _ => mkTime 0 0 0 0 0 0 0 0 0 "" 0))).1 with
  | Return l => l
  | _ => 0%nat
  end.

(** Package-level functions for convenience. *)
Definition SetLevel (level : LogLevel) : M loc := Logger.SetLevel defaultLogger level.
Definition SetOutput (w : Writer) : M loc := Logger.SetOutput defaultLogger w.
Definition SetTimeFormat (format : string) : M loc := Logger.SetTimeFormat defaultLogger format.
Definition AddField (key : string) (value : Value) : M loc := Logger.AddField defaultLogger key value.
Definition AddFields (fields : Fields) : M loc := Logger.AddFields defaultLogger fields.
Definition Debug (msg : string) : M unit := Logger.Debug defaultLogger msg.
Definition Info (msg : string) : M unit := Logger.Info defaultLogger msg.
Definition Warn (msg : string) : M unit := Logger.Warn defaultLogger msg.
Definition Error (msg : string) : M unit := Logger.Error defaultLogger msg.
Definition Fatal (msg : string) : M unit := Logger.Fatal defaultLogger msg.
Definition Panic (msg : string) : M unit := Logger.Panic defaultLogger msg.

End logger.

(* ===================================================================== *)
(** ** Vocabulary of the statements *)
(* ===================================================================== *)

Module Spec.
Import Bytes Strconv GoTime Utf8 JSON logger.

(** The map [log] hands to [json.Marshal]: the three reserved keys, then
    the fields of the logger laid over them. *)
Definition log_entry (r : Logger) (lvl : LogLevel) (msg : string) (now : Time)
  : Fields :=
  range_assign (fields r)
    (<["time" := VString (Format now (timeFormat r))]>
       (<["message" := VString msg]>
          (<["level" := VString (LogLevel_String lvl)]> ∅))).

(** The fallback line with its two holes filled in, byte for byte. *)
Definition fallback_line (err ts : string) : string :=
  "{" ++ quoted "level" ++ ": " ++ quoted "ERROR" ++ ","
    ++ quoted "message" ++ ": " ++ quoted "Failed to marshal log entry" ++ ","
    ++ quoted "error" ++ ": " ++ quoted err ++ ","
    ++ quoted "time" ++ ": " ++ quoted ts ++ "}".

(** The world after one more [Write] and [n] more readings of the clock. *)
Definition emitted (w : World) (out : Writer) (text : string) (n : nat) : World :=
  mkWorld (loggers w) (stdloggers w) (app (written w) [(out, text)]) (clock w)
    (n + ticks w).

(** The world after [n] more readings of the clock and nothing else. *)
Definition ticked (w : World) (n : nat) : World :=
  mkWorld (loggers w) (stdloggers w) (written w) (clock w) (n + ticks w).

(** A writer that is there. *)
Definition is_sink (out : Writer) : bool :=
  match out with
  | Sink _ => true
  | NilWriter => false
  end.

(** How [fmt.Fprintln] on [out] ends a call of [log] that has read the
    clock [n] times: the line is written, or the nil writer is
    dereferenced. *)
Definition line_out (w : World) (out : Writer) (text : string) (n : nat)
  : Outcome unit * World :=
  if is_sink out then (Return tt, emitted w out text n)
  else (Panicked NilDereference, ticked w n).

(** The world with one more logger in the heap. *)
Definition with_logger (w : World) (l : loc) (r : Logger) : World :=
  mkWorld (<[l := r]> (loggers w)) (stdloggers w) (written w) (clock w)
    (ticks w).

Definition digits2 (n : Z) : string :=
  String (digit_char (Z.to_N (n / 10))) (String (digit_char (Z.to_N (n mod 10))) "").

Definition digits4 (n : Z) : string :=
  digits2 (n / 100) ++ digits2 (n mod 100).

(** A date and a time of day as the civil calendar has them. *)
Definition civil (t : Time) : Prop :=
  0 <= year t <= 9999 /\ 1 <= month t <= 12 /\ 1 <= day t <= 31 /\
  0 <= hour t <= 23 /\ 0 <= minute t <= 59 /\ 0 <= second t <= 59.

(** Every byte is below 0x80. *)
Fixpoint is_ascii (s : string) : bool :=
  match s with
  | "" => true
  | String c s' => (byte_val c <? 0x80)%N && is_ascii s'
  end.

(** Every byte is 0x80 or above. *)
Fixpoint all_high (s : string) : bool :=
  match s with
  | "" => true
  | String c s' => (0x80 <=? byte_val c)%N && all_high s'
  end.

(** Every byte is a decimal digit. *)
Fixpoint all_digits (s : string) : bool :=
  match s with
  | "" => true
  | String c s' => isDigit c && all_digits s'
  end.

(** What may follow a value inside an array or an object: nothing, a comma,
    or a closing bracket or brace. *)
Definition ends_value (rest : string) : bool :=
  match rest with
  | "" => true
  | String c _ => byte_is c 0x2C || byte_is c 0x5D || byte_is c 0x7D
  end.

(** What an encoded value starts with: no white space, and no closing
    bracket or brace. *)
Definition value_start (out : string) : Prop :=
  exists (c : ascii) (t : string),
    out = String c t /\ isSpace c = false /\
    byte_is c 0x5D = false /\ byte_is c 0x7D = false.

(** A member of the entry as it is read back from the line: the key coerced
    to valid UTF-8, the value as [toJ] gives it. *)
Definition readEntry (kv : string * Value) : string * JValue :=
  (coerce kv.1, toJ kv.2).

(** A JSON text: the reader, given fuel enough, reads one value and nothing
    but white space is left. *)
Definition is_json_text (s : string) : Prop :=
  exists (fuel : nat) (v : JValue) (rest : string),
    parse_value fuel s = Some (v, rest) /\ skip_ws rest = "".

(** No byte below 0x20: no newline, in particular. *)
Fixpoint no_control (s : string) : bool :=
  match s with
  | "" => true
  | String c s' => (0x20 <=? byte_val c)%N && no_control s'
  end.

(** The number a string of decimal digits stands for, with [acc] for the
    digits already read. *)
Fixpoint dec_value (acc : N) (s : string) : N :=
  match s with
  | "" => acc
  | String c s' => dec_value (10 * acc + (byte_val c - 48))%N s'
  end.

(** The keys [log] writes itself. *)
Definition reserved : gset string := {["level"; "message"; "time"]}.

(** A clock for the examples: 2024-01-02 15:04, the second being the number
    of the reading. *)
Definition sample_clock (n : nat) : Time :=
  mkTime 2024 1 2 15 4 (Z.of_nat n) 0 2 2 "UTC" 0.

Definition sample_world : World := init_world sample_clock.

(** The default logger with one more field, as a world and the new
    logger in it. *)
Definition world_with_field (key : string) (value : Value) : World :=
  (AddField key value sample_world).2.

Definition derived : loc := 1%nat.



(** The same, with the time format of the new logger replaced. *)
Definition world_with_layout (key : string) (value : Value) (layout : string)
  : World :=
  (Logger.SetTimeFormat derived layout (world_with_field key value)).2.

End Spec.

(* ===================================================================== *)
(** ** Vocabulary of the further properties *)
(* ===================================================================== *)

Module Props.
Import Bytes Strconv GoTime Utf8 JSON logger Spec.

(** A logger record with one field replaced, as the setters leave it. *)
Definition with_level (r : Logger) (lvl : LogLevel) : Logger :=
  mkLogger lvl (logger r) (fields r) (output r) (timeFormat r).

Definition with_output (r : Logger) (out : Writer) : Logger :=
  mkLogger (level r) (logger r) (fields r) out (timeFormat r).

Definition with_timeFormat (r : Logger) (format : string) : Logger :=
  mkLogger (level r) (logger r) (fields r) (output r) format.

Definition with_fields (r : Logger) (F : Fields) : Logger :=
  mkLogger (level r) (logger r) F (output r) (timeFormat r).

(** The world with the output of one [log.Logger] replaced. *)
Definition with_std_output (w : World) (l : loc) (out : Writer) (s : StdLogger)
  : World :=
  mkWorld (loggers w)
    (<[l := mkStdLogger out (std_prefix s) (std_flags s)]> (stdloggers w))
    (written w) (clock w) (ticks w).

(** Every logger of the heap holds a [log.Logger] that is there: what [New]
    sets up and the methods keep. *)
Definition heap_ok (w : World) : Prop :=
  forall (l : loc) (r : Logger),
    loggers w !! l = Some r -> is_Some (stdloggers w !! logger r).

(** Text that a JSON string holds as it is: no control byte, no double
    quote, no backslash. *)
Fixpoint plain (s : string) : bool :=
  match s with
  | "" => true
  | String c s' =>
      (0x20 <=? byte_val c)%N && negb (byte_is c 0x22) && negb (byte_is c 0x5C)
        && plain s'
  end.

(** Text that a JSON string holds as it is and that [json.Unmarshal] reads
    back as it is: [plain], and valid UTF-8. *)
Definition verbatim (s : string) : bool := plain s && ValidString s.

(** Text that [json.Marshal] writes as it is: bytes below 0x80 that need no
    escape. *)
Fixpoint html_safe (s : string) : bool :=
  match s with
  | "" => true
  | String c s' => (byte_val c <? 0x80)%N && htmlSafe c && html_safe s'
  end.

(** The line of a logger without fields: the three members [log] writes,
    in the order of their keys. *)
Definition bare_line (name msg ts : string) : string :=
  "{" ++ quoted "level" ++ ":" ++ appendString name ++ ","
    ++ quoted "message" ++ ":" ++ appendString msg ++ ","
    ++ quoted "time" ++ ":" ++ appendString ts ++ "}".

(** The members of the fallback line, read back. *)
Definition fallback_members (err ts : string) : list (string * JValue) :=
  [("level", JString "ERROR");
   ("message", JString "Failed to marshal log entry");
   ("error", JString err);
   ("time", JString ts)].

End Props.

Import Bytes Strconv GoTime Utf8 JSON logger Spec Props.

(* ===================================================================== *)
(** ** Strings *)
(* ===================================================================== *)

Lemma str_app_nil_l (s : string) : "" ++ s = s.
Proof. reflexivity. Qed.

Lemma str_app_cons (c : ascii) (s t : string) : String c s ++ t = String c (s ++ t).
Proof. reflexivity. Qed.

Lemma str_app_nil_r (s : string) : s ++ "" = s.
Proof. induction s as [|c s IH]; [done|]. by rewrite str_app_cons, IH. Qed.

Lemma str_app_assoc (s t u : string) : (s ++ t) ++ u = s ++ (t ++ u).
Proof. induction s as [|c s IH]; [done|]. by rewrite !str_app_cons, IH. Qed.

Lemma str_app_length (s t : string) :
  String.length (s ++ t) = (String.length s + String.length t)%nat.
Proof. induction s as [|c s IH]; [done|]. rewrite str_app_cons. simpl. by rewrite IH. Qed.

Create Rewrite HintDb str.
#[local] Hint Rewrite str_app_nil_l str_app_cons str_app_nil_r str_app_assoc : str.

(* ===================================================================== *)
(** ** Bytes *)
(* ===================================================================== *)

Lemma byte_val_bound (c : ascii) : (byte_val c < 256)%N.
Proof. apply N_ascii_bounded. Qed.

Lemma byte_of_val (c : ascii) : byte_of (byte_val c) = c.
Proof. apply ascii_N_embedding. Qed.

Lemma byte_val_of (n : N) : (n < 256)%N -> byte_val (byte_of n) = n.
Proof. apply N_ascii_embedding. Qed.

Lemma byte_val_inj (a b : ascii) : byte_val a = byte_val b -> a = b.
Proof. intros H. by rewrite <- (byte_of_val a), H, byte_of_val. Qed.

Lemma byte_is_true (c : ascii) (n : N) : byte_is c n = true <-> byte_val c = n.
Proof. unfold byte_is. apply N.eqb_eq. Qed.

Lemma byte_is_false (c : ascii) (n : N) : byte_is c n = false <-> byte_val c <> n.
Proof. unfold byte_is. apply N.eqb_neq. Qed.

(** A property checked on each of the 256 bytes holds of every byte. *)
Lemma byte_forallb (f : ascii -> bool) :
  forallb (fun n => f (byte_of (N.of_nat n))) (seq 0 256) = true ->
  forall c, f c = true.
Proof.
  intros H c. rewrite forallb_forall in H.
  specialize (H (N.to_nat (byte_val c))).
  rewrite N2Nat.id, byte_of_val in H. apply H.
  apply in_seq. pose proof (byte_val_bound c). lia.
Qed.

(* ===================================================================== *)
(** ** Running programs of the monad *)
(* ===================================================================== *)

Lemma bind_Return {A B} (m : M A) (k : A -> M B) (w w' : World) (a : A) :
  m w = (Return a, w') -> (m ≫= k) w = k a w'.
Proof. intros H. unfold mbind, M_bind, bind. by rewrite H. Qed.

Lemma deref_Some (l : loc) (r : Logger) (w : World) :
  loggers w !! l = Some r -> deref l w = (Return r, w).
Proof. intros H. unfold deref. by rewrite H. Qed.

(** An allocation returns a location that was free. *)
Lemma fresh_loc_None (w : World) : loggers w !! fresh (dom (loggers w)) = None.
Proof. apply not_elem_of_dom, is_fresh. Qed.

(** [range] over a map inserts every entry: the outcome is the union, the
    source winning on common keys, whatever the order of the iteration. *)
Lemma range_assign_union (src dst : Fields) : range_assign src dst = src ∪ dst.
Proof.
  unfold range_assign.
  induction src as [|k v src Hk Hfold IH] using map_first_key_ind.
  - by rewrite map_fold_empty, (left_id_L ∅ (∪)).
  - rewrite map_fold_insert_first_key by done.
    by rewrite IH, insert_union_l.
Qed.

Lemma range_assign_empty (src : Fields) : range_assign src ∅ = src.
Proof. by rewrite range_assign_union, (right_id_L ∅ (∪)). Qed.

(* ===================================================================== *)
(** ** Severity names *)
(* ===================================================================== *)

(** C8: the display-name function maps Debug, Info, Warn, Error, Fatal and
    Panic to DEBUG, INFO, WARN, ERROR, FATAL and PANIC, and every other
    integer to UNKNOWN. *)
Theorem LogLevel_String_table :
  LogLevel_String LevelDebug = "DEBUG" /\
  LogLevel_String LevelInfo = "INFO" /\
  LogLevel_String LevelWarn = "WARN" /\
  LogLevel_String LevelError = "ERROR" /\
  LogLevel_String LevelFatal = "FATAL" /\
  LogLevel_String LevelPanic = "PANIC" /\
  forall l : LogLevel,
    l <> LevelDebug -> l <> LevelInfo -> l <> LevelWarn ->
    l <> LevelError -> l <> LevelFatal -> l <> LevelPanic ->
    LogLevel_String l = "UNKNOWN".
Proof.
  repeat split; try reflexivity.
  intros l H0 H1 H2 H3 H4 H5. unfold LogLevel_String, levelNames.
  by rewrite !lookup_insert_ne, lookup_empty.
Qed.

(* ===================================================================== *)
(** ** Construction *)
(* ===================================================================== *)

(** A property checked on every integer of [0 .. n-1] holds on each. *)
Lemma Z_below_forallb (n : Z) (f : Z -> bool) :
  forallb f (map Z.of_nat (seq 0 (Z.to_nat n))) = true ->
  forall x, 0 <= x < n -> f x = true.
Proof.
  intros H x Hx. rewrite forallb_forall in H. apply H.
  apply in_map_iff. exists (Z.to_nat x). split; [lia|].
  apply in_seq. lia.
Qed.

Lemma appendInt_2 (x : Z) : 0 <= x <= 99 -> appendInt x 2 = digits2 x.
Proof.
  intros Hx. apply String.eqb_eq.
  apply (Z_below_forallb 100 (fun x => String.eqb (appendInt x 2) (digits2 x)));
    [vm_compute; reflexivity | lia].
Qed.

Lemma appendInt_4 (x : Z) : 0 <= x <= 9999 -> appendInt x 4 = digits4 x.
Proof.
  intros Hx. apply String.eqb_eq.
  apply (Z_below_forallb 10000 (fun x => String.eqb (appendInt x 4) (digits4 x)));
    [vm_compute; reflexivity | lia].
Qed.

(** The default layout asks for the long year, the zero-padded month and
    day, and the zero-padded 24-hour clock. *)
Lemma Format_default_layout (t : Time) :
  Format t "2006-01-02 15:04:05" =
    appendInt (year t) 4 ++ "-" ++ appendInt (month t) 2 ++ "-"
      ++ appendInt (day t) 2 ++ " " ++ appendInt (hour t) 2 ++ ":"
      ++ appendInt (minute t) 2 ++ ":" ++ appendInt (second t) 2.
Proof.
  unfold Format. simpl String.length.
  repeat (unfold appendFormat; fold appendFormat;
          cbn [nextStdChunk stdChunkHere]; simpl).
  by autorewrite with str.
Qed.

Lemma New_run (out : Writer) (w : World) :
  New out w =
    (Return (fresh (dom (loggers w))),
     mkWorld
       (<[fresh (dom (loggers w)) :=
            mkLogger LevelInfo (fresh (dom (stdloggers w))) ∅ out
              "2006-01-02 15:04:05"]> (loggers w))
       (<[fresh (dom (stdloggers w)) := mkStdLogger out "" log_LstdFlags]>
          (stdloggers w))
       (written w) (clock w) (ticks w)).
Proof. reflexivity. Qed.

(** C6: [New(sink)] returns a logger that was not there before, whose
    threshold is Info, whose field set is empty and whose sink is the given
    one; its time format is the layout that renders every civil time as the
    four-digit year, the two-digit month and day and the two-digit hour (of
    24), minute and second, as YYYY-MM-DD HH:MM:SS. *)
Theorem New_logger (out : Writer) (w : World) (t : Time) :
  civil t ->
  exists (l : loc) (r : Logger),
    (New out w).1 = Return l /\
    loggers w !! l = None /\
    loggers (New out w).2 !! l = Some r /\
    level r = LevelInfo /\
    fields r = ∅ /\
    output r = out /\
    stdloggers (New out w).2 !! logger r = Some (mkStdLogger out "" log_LstdFlags) /\
    written (New out w).2 = written w /\
    (forall l0, l0 <> l -> loggers (New out w).2 !! l0 = loggers w !! l0) /\
    Format t (timeFormat r) =
      digits4 (year t) ++ "-" ++ digits2 (month t) ++ "-" ++ digits2 (day t)
        ++ " " ++ digits2 (hour t) ++ ":" ++ digits2 (minute t) ++ ":"
        ++ digits2 (second t) /\
    String.length (Format t (timeFormat r)) = 19%nat.
Proof.
  intros (Hy & Hmo & Hd & Hh & Hmi & Hs).
  eexists _, _. rewrite New_run. simpl.
  split; [reflexivity|].
  split; [apply fresh_loc_None|].
  split; [apply lookup_insert_eq|].
  do 3 (split; [reflexivity|]).
  split; [apply lookup_insert_eq|].
  split; [reflexivity|].
  split; [intros l0 Hne; by rewrite lookup_insert_ne|].
  rewrite Format_default_layout.
  rewrite appendInt_4 by lia. rewrite !appendInt_2 by lia.
  split; [reflexivity|].
  unfold digits4, digits2. by autorewrite with str.
Qed.

Lemma New_logger_witness :
  exists (l : loc) (r : Logger),
    (New os_Stdout (empty_world sample_clock)).1 = Return l /\
    loggers (New os_Stdout (empty_world sample_clock)).2 !! l = Some r /\
    level r = LevelInfo /\ fields r = ∅ /\ output r = os_Stdout /\
    Format (sample_clock 5) (timeFormat r) = "2024-01-02 15:04:05".
Proof.
  assert (Hc : civil (sample_clock 5)) by (unfold civil; simpl; lia).
  destruct (New_logger os_Stdout (empty_world sample_clock) (sample_clock 5) Hc)
    as (l & r & H1 & _ & H2 & H3 & H4 & H5 & _ & _ & _ & H6 & _).
  exists l, r. repeat (split; [assumption|]).
  rewrite H6. reflexivity.
Defined.

(* ===================================================================== *)
(** ** Deriving loggers *)
(* ===================================================================== *)

Lemma clone_run (w : World) (l : loc) (r : Logger) :
  loggers w !! l = Some r ->
  Logger.clone l w = (Return (fresh (dom (loggers w))),
                      with_logger w (fresh (dom (loggers w))) r).
Proof.
  intros Hl. unfold Logger.clone.
  rewrite (bind_Return _ _ _ _ _ (deref_Some _ _ _ Hl)).
  unfold alloc, with_logger. rewrite range_assign_empty. by destruct r.
Qed.

Lemma AddField_run (w : World) (l : loc) (r : Logger) (key : string) (value : Value) :
  loggers w !! l = Some r ->
  Logger.AddField l key value w =
    (Return (fresh (dom (loggers w))),
     with_logger w (fresh (dom (loggers w)))
       (mkLogger (level r) (logger r) (<[key := value]> (fields r))
          (output r) (timeFormat r))).
Proof.
  intros Hl. unfold Logger.AddField.
  rewrite (bind_Return _ _ _ _ _ (deref_Some _ _ _ Hl)).
  rewrite (bind_Return _ _ _ _ _ (clone_run _ _ _ Hl)).
  unfold Logger.set_field, mbind, M_bind, bind, deref, assign, mret, M_ret, ret,
    with_logger; simpl.
  rewrite lookup_insert_eq; simpl. by rewrite insert_insert_eq.
Qed.

Lemma AddFields_run (w : World) (l : loc) (r : Logger) (F : Fields) :
  loggers w !! l = Some r ->
  Logger.AddFields l F w =
    (Return (fresh (dom (loggers w))),
     with_logger w (fresh (dom (loggers w)))
       (mkLogger (level r) (logger r) (F ∪ fields r) (output r) (timeFormat r))).
Proof.
  intros Hl. unfold Logger.AddFields.
  rewrite (bind_Return _ _ _ _ _ (deref_Some _ _ _ Hl)).
  rewrite (bind_Return _ _ _ _ _ (clone_run _ _ _ Hl)).
  unfold mbind, M_bind, bind, deref, assign, mret, M_ret, ret, with_logger; simpl.
  rewrite lookup_insert_eq; simpl.
  by rewrite insert_insert_eq, range_assign_union.
Qed.

Lemma with_logger_other (w : World) (l l' : loc) (r : Logger) :
  loggers w !! l' = None -> l <> l' ->
  loggers (with_logger w l' r) !! l = loggers w !! l.
Proof. intros _ Hne. simpl. by rewrite lookup_insert_ne. Qed.

(** C5: [AddField] returns a logger that was not there before, with the
    threshold, sink and time format of the receiver and the receiver's field
    set with the key mapped to the value; the receiver, and every other
    logger, is left as it was, and nothing else of the world changes. *)
Theorem AddField_derives (w : World) (l : loc) (r : Logger) (key : string)
    (value : Value) :
  loggers w !! l = Some r ->
  exists (l' : loc) (r' : Logger),
    Logger.AddField l key value w = (Return l', with_logger w l' r') /\
    loggers w !! l' = None /\ l' <> l /\
    level r' = level r /\ output r' = output r /\
    timeFormat r' = timeFormat r /\
    fields r' = <[key := value]> (fields r) /\
    fields r' !! key = Some value /\
    (forall k, k <> key -> fields r' !! k = fields r !! k) /\
    loggers (Logger.AddField l key value w).2 !! l' = Some r' /\
    loggers (Logger.AddField l key value w).2 !! l = Some r /\
    (forall l0, l0 <> l' ->
       loggers (Logger.AddField l key value w).2 !! l0 = loggers w !! l0).
Proof.
  intros Hl. pose proof (fresh_loc_None w) as Hfresh.
  eexists _, _. rewrite (AddField_run w l r key value Hl). simpl.
  split; [reflexivity|].
  split; [done|]. split; [intros E; rewrite E in Hfresh; congruence|].
  do 4 (split; [reflexivity|]).
  split; [apply lookup_insert_eq|].
  split; [intros k Hk; by apply lookup_insert_ne|].
  split; [apply lookup_insert_eq|].
  split.
  - rewrite lookup_insert_ne; [done|]. intros E. rewrite E in Hfresh. congruence.
  - intros l0 Hne. by rewrite lookup_insert_ne.
Qed.

Lemma AddField_derives_witness :
  exists (l' : loc) (r' : Logger),
    Logger.AddField defaultLogger "req_id" (VString "abc123") sample_world
      = (Return l', with_logger sample_world l' r') /\
    fields r' !! "req_id" = Some (VString "abc123").
Proof.
  destruct (AddField_derives sample_world defaultLogger
              (mkLogger LevelInfo 0%nat ∅ os_Stdout "2006-01-02 15:04:05")
              "req_id" (VString "abc123") eq_refl)
    as (l' & r' & Hrun & _ & _ & _ & _ & _ & _ & Hk & _).
  exists l', r'. split; [exact Hrun | exact Hk].
Defined.

(** C3: [AddFields F1] followed by [AddFields F2] gives a logger whose field
    set is the original one merged with [F1] and then with [F2], a later
    write replacing an earlier one under the same key; the field set of the
    original logger (and of the intermediate one) is the same after both
    calls. *)
Theorem AddFields_twice (w : World) (l : loc) (r : Logger) (F1 F2 : Fields) :
  loggers w !! l = Some r ->
  exists (l1 l2 : loc) (w1 w2 : World) (r1 r2 : Logger),
    Logger.AddFields l F1 w = (Return l1, w1) /\
    Logger.AddFields l1 F2 w1 = (Return l2, w2) /\
    loggers w2 !! l2 = Some r2 /\
    fields r2 = F2 ∪ (F1 ∪ fields r) /\
    (forall k,
       fields r2 !! k =
         match F2 !! k with
         | Some v => Some v
         | None => match F1 !! k with
                   | Some v => Some v
                   | None => fields r !! k
                   end
         end) /\
    level r2 = level r /\ output r2 = output r /\
    timeFormat r2 = timeFormat r /\
    l1 <> l /\ l2 <> l /\ l2 <> l1 /\
    loggers w1 !! l = Some r /\ loggers w2 !! l = Some r /\
    loggers w1 !! l1 = Some r1 /\ loggers w2 !! l1 = Some r1 /\
    fields r1 = F1 ∪ fields r.
Proof.
  intros Hl.
  pose proof (AddFields_run w l r F1 Hl) as H1.
  pose (l1 := fresh (dom (loggers w))).
  pose (r1 := mkLogger (level r) (logger r) (F1 ∪ fields r) (output r) (timeFormat r)).
  pose (w1 := with_logger w l1 r1).
  fold l1 r1 in H1. fold w1 in H1.
  assert (Hl1 : loggers w1 !! l1 = Some r1) by apply lookup_insert_eq.
  assert (Hf1 : loggers w !! l1 = None) by apply fresh_loc_None.
  assert (Hne1 : l1 <> l) by (intros E; rewrite E in Hf1; congruence).
  assert (Hl' : loggers w1 !! l = Some r)
    by (unfold w1; rewrite with_logger_other; done).
  pose proof (AddFields_run w1 l1 r1 F2 Hl1) as H2.
  pose (l2 := fresh (dom (loggers w1))).
  pose (r2 := mkLogger (level r1) (logger r1) (F2 ∪ fields r1) (output r1) (timeFormat r1)).
  pose (w2 := with_logger w1 l2 r2).
  fold l2 r2 in H2. fold w2 in H2.
  assert (Hf2 : loggers w1 !! l2 = None) by apply fresh_loc_None.
  assert (Hne2 : l2 <> l) by (intros E; rewrite E in Hf2; congruence).
  assert (Hne3 : l2 <> l1) by (intros E; rewrite E in Hf2; congruence).
  exists l1, l2, w1, w2, r1, r2.
  split; [exact H1|]. split; [exact H2|].
  split; [apply lookup_insert_eq|].
  split; [reflexivity|].
  split.
  { intros k. simpl. rewrite !lookup_union.
    destruct (F2 !! k), (F1 !! k), (fields r !! k); reflexivity. }
  do 3 (split; [reflexivity|]).
  do 3 (split; [done|]).
  split; [done|].
  split; [unfold w2; rewrite with_logger_other; done|].
  split; [done|].
  split; [unfold w2; rewrite with_logger_other; done|].
  reflexivity.
Qed.

Lemma AddFields_twice_witness :
  exists (l1 l2 : loc) (w1 w2 : World) (r2 : Logger),
    Logger.AddFields defaultLogger (<["a" := VInt 1]> (<["b" := VInt 2]> ∅))
      sample_world = (Return l1, w1) /\
    Logger.AddFields l1 (<["b" := VInt 3]> ∅) w1 = (Return l2, w2) /\
    loggers w2 !! l2 = Some r2 /\
    fields r2 !! "a" = Some (VInt 1) /\ fields r2 !! "b" = Some (VInt 3) /\
    loggers w2 !! defaultLogger
      = Some (mkLogger LevelInfo 0%nat ∅ os_Stdout "2006-01-02 15:04:05").
Proof.
  destruct (AddFields_twice sample_world defaultLogger
              (mkLogger LevelInfo 0%nat ∅ os_Stdout "2006-01-02 15:04:05")
              (<["a" := VInt 1]> (<["b" := VInt 2]> ∅)) (<["b" := VInt 3]> ∅)
              eq_refl)
    as (l1 & l2 & w1 & w2 & r1 & r2 & H1 & H2 & Hl2 & Hf & Hk & _ & _ & _ & _
        & _ & _ & _ & Hl & _).
  exists l1, l2, w1, w2, r2.
  split; [exact H1|]. split; [exact H2|]. split; [exact Hl2|].
  split; [rewrite Hk; reflexivity|].
  split; [rewrite Hk; reflexivity|exact Hl].
Defined.

(* ===================================================================== *)
(** ** The default logger *)
(* ===================================================================== *)

(** C7: each package-level function is the method of the same name applied
    to the default logger; [AddField] and [AddFields] at package level
    return a logger other than the default one, and leave the default
    logger, its field set included, as it was. *)
Theorem package_functions_forward (w : World) (r : Logger) :
  loggers w !! defaultLogger = Some r ->
  (forall lvl, SetLevel lvl w = Logger.SetLevel defaultLogger lvl w) /\
  (forall out, SetOutput out w = Logger.SetOutput defaultLogger out w) /\
  (forall f, SetTimeFormat f w = Logger.SetTimeFormat defaultLogger f w) /\
  (forall k v, AddField k v w = Logger.AddField defaultLogger k v w) /\
  (forall F, AddFields F w = Logger.AddFields defaultLogger F w) /\
  (forall msg, Debug msg w = Logger.Debug defaultLogger msg w) /\
  (forall msg, Info msg w = Logger.Info defaultLogger msg w) /\
  (forall msg, Warn msg w = Logger.Warn defaultLogger msg w) /\
  (forall msg, Error msg w = Logger.Error defaultLogger msg w) /\
  (forall msg, Fatal msg w = Logger.Fatal defaultLogger msg w) /\
  (forall msg, Panic msg w = Logger.Panic defaultLogger msg w) /\
  (forall k v, exists l' r',
     (AddField k v w).1 = Return l' /\ l' <> defaultLogger /\
     loggers (AddField k v w).2 !! l' = Some r' /\
     fields r' = <[k := v]> (fields r) /\
     loggers (AddField k v w).2 !! defaultLogger = Some r) /\
  (forall F, exists l' r',
     (AddFields F w).1 = Return l' /\ l' <> defaultLogger /\
     loggers (AddFields F w).2 !! l' = Some r' /\
     fields r' = F ∪ fields r /\
     loggers (AddFields F w).2 !! defaultLogger = Some r).
Proof.
  intros Hl. do 11 (split; [reflexivity|]).
  pose proof (fresh_loc_None w) as Hfresh.
  assert (Hne : fresh (dom (loggers w)) <> defaultLogger)
    by (intros E; rewrite E in Hfresh; congruence).
  split.
  - intros k v. unfold AddField. rewrite (AddField_run _ _ _ _ _ Hl).
    eexists _, _. simpl.
    split; [reflexivity|]. split; [exact Hne|].
    split; [apply lookup_insert_eq|]. split; [reflexivity|].
    by rewrite lookup_insert_ne.
  - intros F. unfold AddFields. rewrite (AddFields_run _ _ _ _ Hl).
    eexists _, _. simpl.
    split; [reflexivity|]. split; [exact Hne|].
    split; [apply lookup_insert_eq|]. split; [reflexivity|].
    by rewrite lookup_insert_ne.
Qed.

Lemma package_functions_forward_witness :
  Info "hello" sample_world = Logger.Info defaultLogger "hello" sample_world /\
  exists l' r',
    (AddField "req_id" (VString "abc123") sample_world).1 = Return l' /\
    l' <> defaultLogger /\
    loggers (AddField "req_id" (VString "abc123") sample_world).2 !! l' = Some r' /\
    fields r' = <["req_id" := VString "abc123"]> ∅ /\
    loggers (AddField "req_id" (VString "abc123") sample_world).2 !! defaultLogger
      = Some (mkLogger LevelInfo 0%nat ∅ os_Stdout "2006-01-02 15:04:05").
Proof.
  destruct (package_functions_forward sample_world
              (mkLogger LevelInfo 0%nat ∅ os_Stdout "2006-01-02 15:04:05") eq_refl)
    as (_ & _ & _ & _ & _ & _ & Hi & _ & _ & _ & _ & Ha & _).
  split; [apply Hi | apply Ha].
Defined.

(* ===================================================================== *)
(** ** Emission *)
(* ===================================================================== *)

Lemma fmt_Sprintf_fallback (err ts : string) :
  fmt_Sprintf Logger.fallback_format [err; ts] = fallback_line err ts.
Proof.
  unfold fallback_line, quoted, quote.
  autorewrite with str.
  let f := eval vm_compute in Logger.fallback_format in
  change Logger.fallback_format with f.
  reflexivity.
Qed.

(** What one call of [log] does, case by case. *)
Lemma log_run (w : World) (l : loc) (r : Logger) (lvl : LogLevel) (msg : string) :
  loggers w !! l = Some r ->
  Logger.log l lvl msg w =
    if lvl <? level r then (Return tt, w)
    else
      match Marshal (log_entry r lvl msg (clock w (ticks w))) with
      | Ok jsonData => line_out w (output r) (jsonData ++ newline) 1
      | Err err =>
          line_out w (output r)
            (fallback_line err (Format (clock w (S (ticks w))) (timeFormat r))
               ++ newline) 2
      end.
Proof.
  intros Hl. unfold Logger.log.
  rewrite (bind_Return _ _ _ _ _ (deref_Some _ _ _ Hl)).
  destruct (lvl <? level r); [reflexivity|].
  erewrite bind_Return by reflexivity.
  fold (log_entry r lvl msg (clock w (ticks w))).
  destruct (Marshal (log_entry r lvl msg (clock w (ticks w)))) as [j|err].
  - unfold line_out. by destruct (output r).
  - erewrite bind_Return by reflexivity.
    rewrite fmt_Sprintf_fallback. unfold line_out. by destruct (output r).
Qed.

Lemma line_out_sink (w : World) (out : Writer) (text : string) (n : nat) :
  is_sink out = true ->
  line_out w out text n = (Return tt, emitted w out text n).
Proof. intros H. unfold line_out. by rewrite H. Qed.

Lemma line_out_nil (w : World) (text : string) (n : nat) :
  line_out w NilWriter text n = (Panicked NilDereference, ticked w n).
Proof. reflexivity. Qed.

(** A writer is there or it is nil. *)
Lemma is_sink_false (out : Writer) : is_sink out = false <-> out = NilWriter.
Proof. by destruct out. Qed.








(* ===================================================================== *)
(** ** Reading back what [appendString] writes *)
(* ===================================================================== *)

Lemma prepend_Some (p t rest : string) :
  prepend p (Some (t, rest)) = Some (p ++ t, rest).
Proof. reflexivity. Qed.

Lemma prepend_prepend (p q : string) (r : option (string * string)) :
  prepend p (prepend q r) = prepend (p ++ q) r.
Proof. destruct r as [[t rest]|]; [|done]. simpl. by rewrite str_app_assoc. Qed.

Lemma prepend_nil (r : option (string * string)) : prepend "" r = r.
Proof. by destruct r as [[t rest]|]. Qed.

Lemma parse_chars_quote (rest : string) : parse_chars (quote ++ rest) = Some ("", rest).
Proof. reflexivity. Qed.

(** A byte that stands for itself. *)
Lemma parse_chars_plain (c : ascii) (s : string) :
  byte_val c <> 0x22%N -> byte_val c <> 0x5C%N -> (0x20 <= byte_val c)%N ->
  parse_chars (String c s) = prepend (String c "") (parse_chars s).
Proof.
  intros H1 H2 H3. cbn [parse_chars].
  apply byte_is_false in H1, H2. rewrite H1, H2.
  destruct (N.ltb_spec (byte_val c) 0x20); [lia | reflexivity].
Qed.

(** Four hexadecimal digits that are not the first half of a surrogate
    pair. *)
Lemma parse_chars_u (h1 h2 h3 h4 : ascii) (r : N) (s : string) :
  hex4 h1 h2 h3 h4 = Some r ->
  isHighSurrogate r = false ->
  parse_chars (String "\" (String "u" (String h1 (String h2 (String h3 (String h4 s))))))
    = prepend (EncodeRune r) (parse_chars s).
Proof.
  intros Hh Hs. cbn [parse_chars].
  change (byte_is "\" 34) with false. change (byte_is "\" 92) with true.
  change (byte_is "u" 117) with true. cbv iota.
  rewrite Hh, Hs.
  destruct s as [|b1 [|u1 [|g1 [|g2 [|g3 [|g4 s12]]]]]]; try reflexivity.
  cbn [andb]. by destruct (hex4 g1 g2 g3 g4).
Qed.

(** The escape of a byte reads back as the byte. *)
Lemma parse_chars_escapeByte (c : ascii) (s : string) :
  (byte_val c <? 0x80)%N = true -> htmlSafe c = false ->
  parse_chars (escapeByte c ++ s) = prepend (String c "") (parse_chars s).
Proof.
  revert c.
  assert (H : forall c,
             implb ((byte_val c <? 0x80)%N && negb (htmlSafe c))
               (match escapeByte c with
                | String b (String e "") =>
                    byte_is b 0x5C && negb (byte_is e 0x75)
                    && match unescape e with
                       | Some d => Ascii.eqb d c
                       | None => false
                       end
                | String b (String u (String h1 (String h2 (String h3 (String h4 ""))))) =>
                    byte_is b 0x5C && byte_is u 0x75
                    && match hex4 h1 h2 h3 h4 with
                       | Some r => (r =? byte_val c)%N
                       | None => false
                       end
                | _ => false
                end) = true).
  { apply byte_forallb. vm_compute. reflexivity. }
  intros c Hc Hs. specialize (H c). rewrite Hc, Hs in H. simpl in H.
  destruct (escapeByte c) as [|b [|e [|h1 [|h2 [|h3 [|h4 [|? ?]]]]]]]; try discriminate.
  - apply andb_prop in H as [H Hd]. apply andb_prop in H as [Hb He].
    apply byte_is_true in Hb. apply negb_true_iff in He.
    destruct (unescape e) as [d|] eqn:Hu; [|discriminate].
    apply Ascii.eqb_eq in Hd as ->.
    rewrite !str_app_cons, str_app_nil_l. cbn [parse_chars].
    assert (byte_is b 34 = false) as -> by (apply byte_is_false; rewrite Hb; lia).
    assert (byte_is b 92 = true) as -> by (by apply byte_is_true).
    by rewrite He, Hu.
  - apply andb_prop in H as [H Hr]. apply andb_prop in H as [Hb Hu].
    apply byte_is_true in Hb, Hu.
    destruct (hex4 h1 h2 h3 h4) as [r|] eqn:Hh; [|discriminate].
    apply N.eqb_eq in Hr. subst r.
    assert (b = "\"%char) as -> by (apply byte_val_inj; by rewrite Hb).
    assert (e = "u"%char) as -> by (apply byte_val_inj; by rewrite Hu).
    rewrite !str_app_cons, str_app_nil_l.
    rewrite (parse_chars_u _ _ _ _ _ _ Hh).
    + unfold EncodeRune. rewrite Hc. by rewrite byte_of_val.
    + unfold isHighSurrogate. apply N.ltb_lt in Hc.
      destruct (N.leb_spec 0xD800 (byte_val c)); [lia | reflexivity].
Qed.

(* ===================================================================== *)
(** ** UTF-8 *)
(* ===================================================================== *)

Lemma land_shiftl_small (a b k : N) : (b < 2 ^ k)%N -> N.land (N.shiftl a k) b = 0%N.
Proof.
  intros Hb. apply N.bits_inj_0. intros n. rewrite N.land_spec.
  destruct (N.lt_ge_cases n k) as [Hn|Hn].
  - by rewrite N.shiftl_spec_low.
  - destruct (N.eq_dec b 0%N) as [->|Hb0]; [by rewrite N.bits_0, andb_false_r|].
    rewrite (N.bits_above_log2 b n), andb_false_r; [done|].
    apply N.lt_le_trans with k; [|done].
    apply N.log2_lt_pow2; lia.
Qed.

(** Putting a small number under a shifted one is an addition. *)
Lemma lor_shiftl_add (a b k : N) :
  (b < 2 ^ k)%N -> N.lor (N.shiftl a k) b = (a * 2 ^ k + b)%N.
Proof.
  intros Hb. pose proof (land_shiftl_small a b k Hb) as H0.
  rewrite <- N.lxor_lor, <- N.add_nocarry_lxor by done.
  by rewrite N.shiftl_mul_pow2.
Qed.

Lemma low6_mod (c : ascii) : low6 c = (byte_val c mod 64)%N.
Proof. unfold low6. change 63%N with (N.ones 6). by rewrite N.land_ones. Qed.

Lemma first_spec (b : N) (sz : nat) (lo hi : N) :
  first b = Some (sz, lo, hi) ->
  (0x80 <= lo)%N /\ (hi <= 0xBF)%N /\
  ((sz = 2%nat /\ 0xC2 <= b <= 0xDF) \/
   (sz = 3%nat /\ 0xE0 <= b <= 0xEF) \/
   (sz = 4%nat /\ 0xF0 <= b <= 0xF4 /\ (b = 0xF0 -> lo = 0x90)))%N.
Proof.
  unfold first. intros H.
  repeat match type of H with
         | (if ?c then _ else _) = _ =>
             let E := fresh "E" in
             destruct c eqn:E;
             [ injection H as <- <- <-;
               repeat match goal with
                      | E : _ && _ = true |- _ => apply andb_prop in E as [? ?]
                      | E : _ && _ = false |- _ => apply andb_false_iff in E
                      | E : (_ <=? _)%N = true |- _ => apply N.leb_le in E
                      | E : (_ <=? _)%N = false |- _ => apply N.leb_gt in E
                      | E : (_ =? _)%N = true |- _ => apply N.eqb_eq in E
                      | E : (_ =? _)%N = false |- _ => apply N.eqb_neq in E
                      end; lia
             | ]
         end.
  discriminate.
Qed.
Lemma take_length (n : nat) (s : string) :
  (n <= String.length s)%nat -> String.length (take n s) = n.
Proof.
  revert s. induction n as [|n IH]; intros [|c s] H; simpl in *; try lia.
  by rewrite IH by lia.
Qed.

Ltac name_divmod :=
  repeat match goal with
         | H : context [N.modulo ?a ?b] |- _ =>
             let m := fresh "m" in set (m := N.modulo a b) in *; clearbody m
         | H : context [N.div ?a ?b] |- _ =>
             let q := fresh "q" in set (q := N.div a b) in *; clearbody q
         end.

(** What [classify] says of a multi-byte rune. *)
Lemma classify_Rune (s : string) (r : N) (size : nat) (bytes : string) :
  classify 0 s = Rune r size bytes ->
  bytes = take size s /\ (2 <= size)%nat /\ (size <= String.length s)%nat /\
  all_high bytes = true /\
  (r = 0x2028%N \/ r = 0x2029%N -> EncodeRune r = bytes).
Proof.
  intros H. destruct s as [|c0 t0]; [discriminate|].
  unfold classify in H.
  destruct (byte_val c0 <? 128)%N eqn:Hc0; [discriminate|].
  destruct (DecodeRuneInString (String c0 t0)) as [r' size'] eqn:Hd.
  destruct ((r' =? RuneError)%N && (size' =? 1)%nat) eqn:Herr; [discriminate|].
  injection H as -> -> <-.
  unfold DecodeRuneInString in Hd. rewrite Hc0 in Hd.
  apply N.ltb_ge in Hc0.
  destruct (first (byte_val c0)) as [[[sz lo] hi]|] eqn:Hf;
    [|injection Hd as <- <-; discriminate].
  apply first_spec in Hf as (Hlo & Hhi & Hsz).
  destruct t0 as [|c1 t1]; [injection Hd as <- <-; discriminate|].
  destruct (in_range lo hi c1) eqn:H1; [|injection Hd as <- <-; discriminate].
  apply andb_prop in H1 as [H1a H1b]. apply N.leb_le in H1a, H1b.
  pose proof (byte_val_bound c0) as B0.
  rewrite !low6_mod in Hd.
  cbn [negb] in Hd.
  destruct (sz <=? 2)%nat eqn:Hs2.
  { injection Hd as <- <-.
    split; [reflexivity|]. split; [lia|]. split; [simpl; lia|].
    split.
    - simpl. apply andb_true_intro; split; [by apply N.leb_le|].
      apply andb_true_intro; split; [apply N.leb_le; lia | reflexivity].
    - change 31%N with (N.ones 5). rewrite N.land_ones.
      rewrite lor_shiftl_add by (apply N.mod_upper_bound; lia).
      intros Hr. exfalso.
      pose proof (N.mod_upper_bound (byte_val c0) (2 ^ 5) ltac:(lia)).
      pose proof (N.mod_upper_bound (byte_val c1) 64 ltac:(lia)).
      change (2 ^ 5)%N with 32%N in *. change (2 ^ 6)%N with 64%N in *.
      clear Herr. name_divmod. lia. }
  destruct t1 as [|c2 t2]; [injection Hd as <- <-; discriminate|].
  destruct (cont c2) eqn:H2; [|injection Hd as <- <-; discriminate].
  apply andb_prop in H2 as [H2a H2b]. apply N.leb_le in H2a, H2b.
  cbn [negb] in Hd.
  apply Nat.leb_gt in Hs2.
  destruct (sz <=? 3)%nat eqn:Hs3.
  { injection Hd as <- <-. apply Nat.leb_le in Hs3.
    split; [reflexivity|]. split; [lia|]. split; [simpl; lia|].
    split.
    - simpl. rewrite !andb_true_iff, !N.leb_le. lia.
    - rewrite ?low6_mod. change 15%N with (N.ones 4). rewrite N.land_ones.
      rewrite (lor_shiftl_add (byte_val c1 mod 64)) by (apply N.mod_upper_bound; lia).
      pose proof (N.mod_upper_bound (byte_val c0) (2 ^ 4) ltac:(lia)) as M0.
      pose proof (N.mod_upper_bound (byte_val c1) 64 ltac:(lia)) as M1.
      pose proof (N.mod_upper_bound (byte_val c2) 64 ltac:(lia)) as M2.
      rewrite lor_shiftl_add by (change (2 ^ 12)%N with 4096%N; change (2^6)%N with 64%N; lia).
      change (2 ^ 4)%N with 16%N in *. change (2 ^ 6)%N with 64%N in *.
      change (2 ^ 12)%N with 4096%N in *.
      pose proof (N.div_mod' (byte_val c0) 16) as D0.
      pose proof (N.div_mod' (byte_val c1) 64) as D1.
      pose proof (N.div_mod' (byte_val c2) 64) as D2.
      intros [Hr|Hr]; rewrite Hr; clear Herr; name_divmod.
      + assert (c0 = byte_of 0xE2) as -> by (apply byte_val_inj; rewrite byte_val_of; lia).
        assert (c1 = byte_of 0x80) as -> by (apply byte_val_inj; rewrite byte_val_of; lia).
        assert (c2 = byte_of 0xA8) as -> by (apply byte_val_inj; rewrite byte_val_of; lia).
        reflexivity.
      + assert (c0 = byte_of 0xE2) as -> by (apply byte_val_inj; rewrite byte_val_of; lia).
        assert (c1 = byte_of 0x80) as -> by (apply byte_val_inj; rewrite byte_val_of; lia).
        assert (c2 = byte_of 0xA9) as -> by (apply byte_val_inj; rewrite byte_val_of; lia).
        reflexivity. }
  destruct t2 as [|c3 t3]; [injection Hd as <- <-; discriminate|].
  destruct (cont c3) eqn:H3; [|injection Hd as <- <-; discriminate].
  apply andb_prop in H3 as [H3a H3b]. apply N.leb_le in H3a, H3b.
  cbn [negb] in Hd. apply Nat.leb_gt in Hs3.
  injection Hd as <- <-.
  split; [reflexivity|]. split; [lia|]. split; [simpl; lia|].
  split.
  - simpl. rewrite !andb_true_iff, !N.leb_le. lia.
  - rewrite ?low6_mod. change 7%N with (N.ones 3). rewrite N.land_ones.
    pose proof (N.mod_upper_bound (byte_val c0) (2 ^ 3) ltac:(lia)) as M0.
    pose proof (N.mod_upper_bound (byte_val c1) 64 ltac:(lia)) as M1.
    pose proof (N.mod_upper_bound (byte_val c2) 64 ltac:(lia)) as M2.
    pose proof (N.mod_upper_bound (byte_val c3) 64 ltac:(lia)) as M3.
    rewrite (lor_shiftl_add (byte_val c2 mod 64)) by (apply N.mod_upper_bound; lia).
    change (2 ^ 3)%N with 8%N in *. change (2 ^ 6)%N with 64%N in *.
    rewrite (lor_shiftl_add (byte_val c1 mod 64))
      by (change (2 ^ 12)%N with 4096%N; lia).
    rewrite lor_shiftl_add by (change (2 ^ 18)%N with 262144%N; change (2 ^ 12)%N with 4096%N; lia).
    change (2 ^ 12)%N with 4096%N in *. change (2 ^ 18)%N with 262144%N in *.
    pose proof (N.div_mod' (byte_val c0) 8) as D0.
    pose proof (N.div_mod' (byte_val c1) 64) as D1.
    intros Hr. exfalso. clear Herr. name_divmod. lia.
Qed.

(* ===================================================================== *)
(** ** Strings read back *)
(* ===================================================================== *)

Lemma parse_chars_raw (bytes s : string) :
  all_high bytes = true ->
  parse_chars (bytes ++ s) = prepend bytes (parse_chars s).
Proof.
  induction bytes as [|c bytes IH]; intros H; [by rewrite prepend_nil|].
  simpl in H. apply andb_prop in H as [Hc H]. apply N.leb_le in Hc.
  rewrite str_app_cons, parse_chars_plain by lia.
  by rewrite IH, prepend_prepend.
Qed.

Lemma classify_Single (skip : nat) (s : string) (c : ascii) :
  classify skip s = Single c -> (byte_val c <? 0x80)%N = true.
Proof.
  unfold classify. destruct skip; [|discriminate].
  destruct s as [|c0 s]; [discriminate|].
  destruct (byte_val c0 <? 128)%N eqn:E.
  - by intros [= <-].
  - destruct (DecodeRuneInString _) as [r size]. by destruct (_ && _).
Qed.

Lemma htmlSafe_plain (c : ascii) :
  htmlSafe c = true ->
  byte_val c <> 0x22%N /\ byte_val c <> 0x5C%N /\ (0x20 <= byte_val c)%N.
Proof.
  unfold htmlSafe. rewrite !andb_true_iff, !negb_true_iff, N.leb_le, !N.eqb_neq.
  tauto.
Qed.

(** [appendString] read back: the text comes out coerced to valid UTF-8. *)
Lemma parse_chars_appendString_go (s : string) :
  forall (skip : nat) (rest : string),
    parse_chars (appendString_go skip s ++ quote ++ rest)
      = Some (coerce_go skip s, rest).
Proof.
  induction s as [|c s IH]; intros skip rest; [reflexivity|].
  cbn [appendString_go coerce_go].
  destruct (classify skip (String c s)) as [|c'| |r size bytes] eqn:Ha;
    rewrite str_app_assoc.
  - rewrite !str_app_nil_l. apply IH.
  - pose proof (classify_Single _ _ _ Ha) as Hc.
    destruct (htmlSafe c') eqn:Hs.
    + apply htmlSafe_plain in Hs as (H1 & H2 & H3).
      rewrite str_app_cons, str_app_nil_l, parse_chars_plain by done.
      by rewrite IH.
    + rewrite parse_chars_escapeByte by done. by rewrite IH.
  - rewrite !str_app_cons, str_app_nil_l.
    rewrite (parse_chars_u _ _ _ _ 0xFFFD) by reflexivity.
    by rewrite IH.
  - assert (skip = 0%nat) as -> by (destruct skip; [done | discriminate]).
    apply classify_Rune in Ha as (Hb & Hsz & Hlen & Hhigh & Hsep).
    destruct ((r =? 0x2028)%N || (r =? 0x2029)%N) eqn:Hr.
    + apply orb_prop in Hr. rewrite !N.eqb_eq in Hr.
      rewrite <- (Hsep Hr).
      destruct Hr as [-> | ->];
        [change (hexDigit (N.land 8232 15)) with "8"%char
        |change (hexDigit (N.land 8233 15)) with "9"%char];
        autorewrite with str;
        (erewrite parse_chars_u by reflexivity); by rewrite IH.
    + rewrite parse_chars_raw by done. by rewrite IH.
Qed.

Lemma parse_chars_appendString (s rest : string) :
  parse_chars (appendString_go 0 s ++ quote ++ rest) = Some (coerce s, rest).
Proof. apply parse_chars_appendString_go. Qed.

(* ===================================================================== *)
(** ** Numbers read back *)
(* ===================================================================== *)

Lemma digit_char_val (k : N) : (k < 10)%N -> byte_val (digit_char k) = (48 + k)%N.
Proof. intros H. unfold digit_char. apply byte_val_of. lia. Qed.

Lemma isDigit_digit_char (k : N) : (k < 10)%N -> isDigit (digit_char k) = true.
Proof.
  intros H. unfold isDigit, in_range. rewrite digit_char_val by done.
  apply andb_true_intro; split; apply N.leb_le; lia.
Qed.

Lemma all_digits_app (s t : string) :
  all_digits (s ++ t) = all_digits s && all_digits t.
Proof.
  induction s as [|c s IH]; [done|].
  rewrite str_app_cons. simpl. by rewrite IH, andb_assoc.
Qed.

(** The digits of a positive number: a first digit that is not zero, then
    digits. *)
Lemma utoa_go_digits (fuel : nat) :
  forall (n : N) (acc : string),
    (0 < n)%N -> (n < 2 ^ N.of_nat (S fuel))%N ->
    exists (d : ascii) (ds : string),
      utoa_go fuel n acc = String d (ds ++ acc) /\
      (49 <= byte_val d <= 57)%N /\ all_digits ds = true.
Proof.
  induction fuel as [|fuel IH]; intros n acc Hpos Hlt.
  - assert (n = 1%N) as -> by (change (2 ^ N.of_nat 1)%N with 2%N in Hlt; lia).
    exists "1"%char, "". repeat split; vm_compute; congruence.
  - cbn [utoa_go].
    pose proof (N.mod_upper_bound n 10 ltac:(lia)) as Hm.
    pose proof (N.div_mod' n 10) as Hd.
    destruct (N.eqb_spec (n / 10) 0%N) as [Hq|Hq].
    + exists (digit_char (n mod 10)), "". split; [reflexivity|].
      rewrite digit_char_val by done. split; [|reflexivity].
      rewrite Hq in Hd. lia.
    + destruct (IH (n / 10)%N (String (digit_char (n mod 10)) acc))
        as (d & ds & Heq & Hd1 & Hds).
      * lia.
      * rewrite Nat2N.inj_succ, N.pow_succ_r' in Hlt.
        apply N.Div0.div_lt_upper_bound. lia.
      * exists d, (ds ++ String (digit_char (n mod 10)) "").
        rewrite Heq. split; [by autorewrite with str|]. split; [done|].
        rewrite all_digits_app, Hds. simpl.
        by rewrite isDigit_digit_char.
Qed.

Lemma utoa_digits (n : N) :
  (n = 0%N /\ utoa n = "0") \/
  (exists (d : ascii) (ds : string),
     utoa n = String d ds /\ (49 <= byte_val d <= 57)%N /\ all_digits ds = true).
Proof.
  destruct (N.eq_dec n 0%N) as [->|Hn]; [by left|]. right.
  destruct (utoa_go_digits (N.to_nat (N.log2 n)) n "") as (d & ds & H & Hd & Hds).
  - lia.
  - rewrite Nat2N.inj_succ, N2Nat.id. apply N.log2_spec. lia.
  - exists d, ds. rewrite str_app_nil_r in H. done.
Qed.

Lemma ends_value_not_digit (c : ascii) (r : string) :
  ends_value (String c r) = true ->
  isDigit c = false /\ byte_is c 0x2E = false /\ byte_is c 0x65 = false /\
  byte_is c 0x45 = false /\ isSpace c = false.
Proof.
  unfold ends_value, isDigit, in_range, isSpace, byte_is.
  rewrite !orb_true_iff, !N.eqb_eq. intros H.
  repeat split;
    rewrite ?orb_false_iff, ?andb_false_iff, ?N.eqb_neq, ?N.leb_gt; lia.
Qed.

Lemma span_digits_all (ds rest : string) :
  all_digits ds = true -> ends_value rest = true ->
  span_digits (ds ++ rest) = (ds, rest).
Proof.
  intros Hds Hrest. induction ds as [|c ds IH].
  - rewrite str_app_nil_l. destruct rest as [|c r]; [done|].
    apply ends_value_not_digit in Hrest as (H & _). simpl. by rewrite H.
  - simpl in Hds. apply andb_prop in Hds as [Hc Hds].
    rewrite str_app_cons. simpl. by rewrite Hc, IH.
Qed.

Lemma scan_tail (rest : string) :
  ends_value rest = true ->
  scan_frac rest = Some ("", rest) /\ scan_exp rest = Some ("", rest).
Proof.
  destruct rest as [|c r]; [done|]. intros H.
  apply ends_value_not_digit in H as (_ & H1 & H2 & H3 & _).
  unfold scan_frac, scan_exp. by rewrite H1, H2, H3.
Qed.

Lemma scan_int_utoa (n : N) (rest : string) :
  ends_value rest = true ->
  scan_int (utoa n ++ rest) = Some (utoa n, rest).
Proof.
  intros Hrest. destruct (utoa_digits n) as [[-> ->]|(d & ds & -> & Hd & Hds)].
  - reflexivity.
  - rewrite str_app_cons. unfold scan_int.
    assert (byte_is d 48 = false) as -> by (apply byte_is_false; lia).
    assert (isDigit d = true) as ->.
    { unfold isDigit, in_range. apply andb_true_intro; split; apply N.leb_le; lia. }
    by rewrite span_digits_all.
Qed.

Lemma utoa_first (n : N) :
  exists (d : ascii) (ds : string), utoa n = String d ds /\ (48 <= byte_val d <= 57)%N.
Proof.
  destruct (utoa_digits n) as [[-> ->]|(d & ds & -> & Hd & Hds)].
  - exists "0"%char, "". split; [done|]. vm_compute. split; congruence.
  - exists d, ds. split; [done | lia].
Qed.

(** An integer as [strconv] writes it is a JSON number, read back as
    written. *)
Lemma scan_number_itoa (z : Z) (rest : string) :
  ends_value rest = true ->
  scan_number (itoa z ++ rest) = Some (itoa z, rest).
Proof.
  intros Hrest. unfold itoa, scan_number.
  destruct (scan_tail rest Hrest) as [Hf He].
  destruct (z <? 0).
  - rewrite str_app_cons. change (byte_is "-" 45) with true. cbv iota.
    rewrite scan_int_utoa, Hf, He by done. by autorewrite with str.
  - destruct (utoa_first (Z.to_N z)) as (d & ds & E & Hd).
    pose proof (scan_int_utoa (Z.to_N z) rest Hrest) as Hi.
    rewrite E in *. rewrite str_app_cons in *.
    assert (byte_is d 45 = false) as -> by (apply byte_is_false; lia).
    rewrite Hi, Hf, He. by autorewrite with str.
Qed.

Lemma itoa_first (z : Z) :
  exists (d : ascii) (ds : string),
    itoa z = String d ds /\ (byte_val d = 45 \/ 48 <= byte_val d <= 57)%N.
Proof.
  unfold itoa. destruct (z <? 0).
  - exists "-"%char, (utoa (Z.to_N (- z))). split; [done|]. by left.
  - destruct (utoa_first (Z.to_N z)) as (d & ds & E & Hd).
    exists d, ds. split; [done | by right].
Qed.

(* ===================================================================== *)
(** ** Values and objects read back *)
(* ===================================================================== *)

(** Induction on values, with the hypothesis for every element of a
    slice. *)
Lemma Value_nested_ind (P : Value -> Prop) :
  P VNil -> (forall b, P (VBool b)) -> (forall n, P (VInt n)) ->
  (forall s, P (VString s)) ->
  (forall vs, Forall P vs -> P (VSlice vs)) ->
  (forall kvs, Forall (fun kv => P kv.2) kvs -> P (VMap kvs)) ->
  (forall typ, P (VUnsupported typ)) ->
  (forall typ msg, P (VMarshalerError typ msg)) ->
  forall v, P v.
Proof.
  intros HN HB HI HS HL HO HU HM.
  fix IH 1. intros [ |b|n|s|vs|kvs|typ|typ msg].
  - apply HN.
  - apply HB.
  - apply HI.
  - apply HS.
  - apply HL. induction vs as [|v vs IHvs].
    + constructor.
    + constructor; [apply IH | apply IHvs].
  - apply HO. induction kvs as [|[k v] kvs IHkvs].
    + constructor.
    + constructor; [apply IH | apply IHkvs].
  - apply HU.
  - apply HM.
Qed.

Lemma skip_ws_start (c : ascii) (s : string) :
  isSpace c = false -> skip_ws (String c s) = String c s.
Proof. intros H. simpl. by rewrite H. Qed.

Lemma value_start_length (out : string) :
  value_start out -> (1 <= String.length out)%nat.
Proof. intros (c & t & -> & _). simpl. lia. Qed.

Lemma parse_elems_encode (vs : list Value) :
  Forall (fun v =>
            forall out, encode v = Ok out ->
              value_start out /\
              forall fuel rest,
                (2 * String.length out <= fuel)%nat -> ends_value rest = true ->
                parse_value fuel (out ++ rest) = Some (toJ v, rest)) vs ->
  vs <> [] ->
  forall body, encodeElems encode vs = Ok body ->
    value_start body /\
    forall fuel rest,
      (2 * String.length body + 1 <= fuel)%nat ->
      parse_elems fuel (body ++ "]" ++ rest) = Some (map toJ vs, rest).
Proof.
  induction 1 as [|v vs Hv Hvs IH]; [done|]. intros _ body Hbody.
  cbn [encodeElems] in Hbody.
  destruct (encode v) as [o|] eqn:Ho; [|discriminate].
  destruct (Hv o eq_refl) as [Hstart Hparse].
  destruct vs as [|v' vs'].
  - injection Hbody as <-. split; [done|].
    intros [|fuel] rest Hfuel; [lia|]. cbn [parse_elems].
    rewrite Hparse by (done || lia). reflexivity.
  - destruct (encodeElems encode (v' :: vs')) as [r|] eqn:Hr; [|discriminate].
    injection Hbody as <-.
    destruct (IH ltac:(done) r eq_refl) as [_ IHparse].
    split.
    { destruct Hstart as (c & t & -> & Hc). exists c, (t ++ "," ++ r).
      by rewrite str_app_cons. }
    intros [|fuel] rest Hfuel; [lia|]. cbn [parse_elems].
    rewrite !str_app_length in Hfuel. simpl in Hfuel.
    rewrite !str_app_assoc.
    rewrite Hparse by (done || lia).
    rewrite str_app_cons, str_app_nil_l.
    change (skip_ws (String "," ?s)) with (String "," s).
    cbv iota. change (byte_is "," 44) with true. cbv iota.
    rewrite IHparse by lia. reflexivity.
Qed.

Lemma parse_members_encode (kvs : list (string * Value)) :
  Forall (fun kv =>
            forall out, encode kv.2 = Ok out ->
              value_start out /\
              forall fuel rest,
                (2 * String.length out <= fuel)%nat -> ends_value rest = true ->
                parse_value fuel (out ++ rest) = Some (toJ kv.2, rest)) kvs ->
  kvs <> [] ->
  forall body, encodeMembers encode kvs = Ok body ->
    (exists t, body = String (byte_of 34) t) /\
    forall fuel rest,
      (2 * String.length body + 1 <= fuel)%nat ->
      parse_members fuel (body ++ "}" ++ rest) = Some (map readEntry kvs, rest).
Proof.
  induction 1 as [|[k v] kvs Hv Hkvs IH]; [done|]. intros _ body Hbody.
  cbn [encodeMembers] in Hbody. cbn [snd] in Hv.
  destruct (encode v) as [o|] eqn:Ho; [|discriminate].
  destruct (Hv o eq_refl) as [Hstart Hparse].
  apply value_start_length in Hstart.
  assert (Hkey : forall fuel tail,
             parse_members (S fuel) (appendString k ++ ":" ++ tail) =
               match parse_value fuel tail with
               | None => None
               | Some (v', r3) =>
                   match skip_ws r3 with
                   | "" => None
                   | String c r4 =>
                       if byte_is c 0x2C
                       then with_rest (cons (coerce k, v')) (parse_members fuel r4)
                       else if byte_is c 0x7D then Some ([(coerce k, v')], r4)
                       else None
                   end
               end).
  { intros fuel tail. unfold appendString, quote. autorewrite with str.
    cbn [parse_members]. rewrite skip_ws_start by reflexivity.
    change (byte_is (byte_of 34) 34) with true. cbv iota.
    change (String (byte_of 34) (String ":" tail)) with (quote ++ String ":" tail).
    rewrite parse_chars_appendString.
    rewrite skip_ws_start by reflexivity.
    change (byte_is ":" 58) with true. reflexivity. }
  destruct kvs as [|kv' kvs'].
  - injection Hbody as <-.
    split; [unfold appendString, quote; autorewrite with str; by eexists|].
    intros [|fuel] rest Hfuel; [lia|].
    rewrite !str_app_length in Hfuel. cbn [String.length] in Hfuel.
    rewrite !str_app_assoc, Hkey.
    rewrite Hparse by (done || lia). reflexivity.
  - destruct (encodeMembers encode (kv' :: kvs')) as [r|] eqn:Hr; [|discriminate].
    injection Hbody as <-.
    destruct (IH ltac:(done) r eq_refl) as [_ IHparse].
    split; [unfold appendString, quote; autorewrite with str; by eexists|].
    intros [|fuel] rest Hfuel; [lia|].
    rewrite !str_app_length in Hfuel. cbn [String.length] in Hfuel.
    rewrite !str_app_assoc, Hkey.
    rewrite Hparse by (done || lia).
    rewrite str_app_cons, str_app_nil_l.
    rewrite skip_ws_start by reflexivity.
    change (byte_is "," 44) with true. cbv iota.
    rewrite IHparse by lia. reflexivity.
Qed.

(** Every value the encoder accepts is read back as [toJ] of it. *)
Lemma parse_value_encode (v : Value) :
  forall out, encode v = Ok out ->
    value_start out /\
    forall fuel rest,
      (2 * String.length out <= fuel)%nat -> ends_value rest = true ->
      parse_value fuel (out ++ rest) = Some (toJ v, rest).
Proof.
  induction v as [ |b|n|s|vs IH|kvs IH|typ|typ msg] using Value_nested_ind;
    intros out Hout; cbn [encode] in Hout; try discriminate.
  - injection Hout as <-. split; [by exists "n"%char, "ull"|].
    intros [|fuel] rest Hf _; [simpl in Hf; lia | reflexivity].
  - injection Hout as <-. destruct b.
    + split; [by exists "t"%char, "rue"|].
      intros [|fuel] rest Hf _; [simpl in Hf; lia | reflexivity].
    + split; [by exists "f"%char, "alse"|].
      intros [|fuel] rest Hf _; [simpl in Hf; lia | reflexivity].
  - injection Hout as <-.
    destruct (itoa_first n) as (d & ds & E & Hd).
    assert (Hsp : isSpace d = false /\ byte_is d 0x5D = false
                  /\ byte_is d 0x7D = false /\ byte_is d 0x7B = false
                  /\ byte_is d 0x5B = false /\ byte_is d 0x22 = false
                  /\ byte_is d 0x74 = false /\ byte_is d 0x66 = false
                  /\ byte_is d 0x6E = false).
    { unfold isSpace. rewrite !orb_false_iff, !byte_is_false. lia. }
    destruct Hsp as (H1 & H2 & H3 & H4 & H5 & H6 & H7 & H8 & H9).
    split; [by exists d, ds|].
    intros [|fuel] rest Hf Hrest; [rewrite E in Hf; simpl in Hf; lia|].
    cbn [parse_value toJ].
    pose proof (scan_number_itoa n rest Hrest) as Hs.
    rewrite E in *. rewrite str_app_cons in *.
    rewrite skip_ws_start by done.
    by rewrite H4, H5, H6, H7, H8, H9, Hs.
  - injection Hout as <-. unfold appendString, quote.
    split; [by eexists _, _|].
    intros [|fuel] rest Hf _; [simpl in Hf; lia|].
    autorewrite with str.
    cbn [parse_value]. rewrite skip_ws_start by reflexivity.
    change (byte_is (byte_of 34) 123) with false.
    change (byte_is (byte_of 34) 91) with false.
    change (byte_is (byte_of 34) 34) with true. cbv iota.
    change (String (byte_of 34) rest) with (quote ++ rest).
    by rewrite parse_chars_appendString.
  - destruct (encodeElems encode vs) as [body|] eqn:Hbody; [|discriminate].
    injection Hout as <-.
    split; [by exists "["%char, (body ++ "]")|].
    intros [|fuel] rest Hf _; [simpl in Hf; lia|].
    autorewrite with str.
    change (String "]" rest) with ("]" ++ rest).
    cbn [parse_value]. rewrite skip_ws_start by reflexivity.
    change (byte_is "[" 123) with false. change (byte_is "[" 91) with true.
    cbv iota.
    destruct vs as [|v vs].
    + injection Hbody as <-. reflexivity.
    + destruct (parse_elems_encode (v :: vs) IH ltac:(done) body Hbody)
        as [(c & t & -> & Hc1 & Hc2 & Hc3) Hparse].
      rewrite (str_app_cons c), skip_ws_start by done. rewrite Hc2.
      rewrite <- (str_app_cons c).
      rewrite !str_app_length in Hf. cbn [String.length] in Hf.
      rewrite Hparse by (cbn [String.length]; lia). reflexivity.
  - destruct (encodeMembers encode kvs) as [body|] eqn:Hbody; [|discriminate].
    injection Hout as <-.
    split; [by exists "{"%char, (body ++ "}")|].
    intros [|fuel] rest Hf _; [simpl in Hf; lia|].
    autorewrite with str.
    change (String "}" rest) with ("}" ++ rest).
    cbn [parse_value toJ]. rewrite skip_ws_start by reflexivity.
    change (byte_is "{" 123) with true. cbv iota.
    destruct kvs as [|kv kvs].
    + injection Hbody as <-. reflexivity.
    + destruct (parse_members_encode (kv :: kvs) IH ltac:(done) body Hbody)
        as [(t & ->) Hparse].
      rewrite (str_app_cons (byte_of 34)), skip_ws_start by reflexivity.
      change (byte_is (byte_of 34) 125) with false. cbv iota.
      rewrite <- (str_app_cons (byte_of 34)).
      rewrite !str_app_length in Hf. cbn [String.length] in Hf.
      rewrite Hparse by (cbn [String.length]; lia). reflexivity.
Qed.
(** A marshalled map is a JSON text: an object with one member for each
    entry of the map, in the order of the keys. *)
Lemma parse_Marshal (m : Fields) (out : string) :
  Marshal m = Ok out ->
  parse out = Some (JObject (map readEntry (sortedEntries m))).
Proof.
  unfold Marshal. intros H.
  destruct (parse_value_encode _ _ H) as [_ Hparse].
  unfold parse. rewrite <- (str_app_nil_r out) at 2.
  rewrite Hparse by (done || lia). reflexivity.
Qed.

(* ===================================================================== *)
(** ** Coercion to valid UTF-8 *)
(* ===================================================================== *)

Lemma take_drop (n : nat) (s : string) : take n s ++ drop n s = s.
Proof.
  revert s. induction n as [|n IH]; intros [|c s]; try reflexivity.
  cbn [take drop]. by rewrite str_app_cons, IH.
Qed.

Lemma classify_Single_head (skip : nat) (c c' : ascii) (s : string) :
  classify skip (String c s) = Single c' -> skip = 0%nat /\ c' = c.
Proof.
  unfold classify. destruct skip; [|discriminate].
  destruct (byte_val c <? 128)%N.
  - by intros [= <-].
  - destruct (DecodeRuneInString _) as [r size]. by destruct (_ && _).
Qed.

Lemma classify_cases (skip : nat) (c : ascii) (s : string) :
  match classify skip (String c s) with
  | Inside => skip <> 0%nat
  | _ => skip = 0%nat
  end.
Proof.
  unfold classify. destruct skip; [|done].
  destruct (byte_val c <? 128)%N; [done|].
  destruct (DecodeRuneInString _) as [r size]. by destruct (_ && _).
Qed.

(** Valid UTF-8 is left as it is. *)
Lemma coerce_go_valid (s : string) :
  forall skip : nat, valid_go skip s = true -> coerce_go skip s = drop skip s.
Proof.
  induction s as [|c s IH]; intros skip H; [by destruct skip|].
  cbn [valid_go coerce_go] in *.
  pose proof (classify_cases skip c s) as Hk.
  destruct (classify skip (String c s)) as [|c'| |r size bytes] eqn:Ha.
  - destruct skip as [|k]; [done|]. cbn [next_skip Nat.pred drop] in *.
    rewrite str_app_nil_l. by apply IH.
  - apply classify_Single_head in Ha as [-> ->]. cbn [next_skip drop] in *.
    rewrite (IH 0%nat) by done. by destruct s.
  - discriminate.
  - subst skip. apply classify_Rune in Ha as (-> & Hsz & _).
    cbn [next_skip andb] in *. rewrite (IH _ H).
    destruct size as [|size]; [lia|]. cbn [take Nat.pred drop].
    by rewrite str_app_cons, take_drop.
Qed.

Lemma coerce_valid (s : string) : ValidString s = true -> coerce s = s.
Proof. intros H. unfold coerce. rewrite coerce_go_valid by done. by destruct s. Qed.

Lemma is_ascii_high (bytes t : string) :
  all_high bytes = true -> bytes <> "" -> is_ascii (bytes ++ t) = false.
Proof.
  destruct bytes as [|c bytes]; [done|]. intros H _.
  simpl in H. apply andb_prop in H as [H _]. apply N.leb_le in H.
  rewrite str_app_cons. simpl.
  destruct (N.ltb_spec (byte_val c) 128); [lia | reflexivity].
Qed.

(** A coerced text without a byte above 0x7F was that text to begin
    with. *)
Lemma coerce_go_ascii (s : string) :
  is_ascii (coerce_go 0 s) = true -> coerce_go 0 s = s.
Proof.
  induction s as [|c s IH]; [done|]. cbn [coerce_go].
  pose proof (classify_cases 0 c s) as Hk.
  destruct (classify 0 (String c s)) as [|c'| |r size bytes] eqn:Ha.
  - done.
  - apply classify_Single_head in Ha as [_ ->]. cbn [next_skip].
    rewrite str_app_cons, str_app_nil_l. simpl. intros H.
    apply andb_prop in H as [_ H]. by rewrite IH.
  - intros H. by rewrite is_ascii_high in H.
  - apply classify_Rune in Ha as (-> & Hsz & Hlen & Hhigh & _).
    intros H. rewrite is_ascii_high in H; [done..|].
    destruct size; [lia|]. done.
Qed.

Lemma coerce_ascii_inv (s : string) : is_ascii (coerce s) = true -> coerce s = s.
Proof. apply coerce_go_ascii. Qed.

Lemma coerce_ascii (s : string) : is_ascii s = true -> coerce s = s.
Proof.
  unfold coerce. induction s as [|c s IH]; [done|]. simpl. intros H.
  apply andb_prop in H as [Hc H]. unfold classify. rewrite Hc. cbn [next_skip].
  by rewrite IH.
Qed.

(* ===================================================================== *)
(** ** The members of an emitted object *)
(* ===================================================================== *)

Lemma sortedEntries_elem (m : Fields) (k : string) (v : Value) :
  In (k, v) (sortedEntries m) <-> m !! k = Some v.
Proof.
  unfold sortedEntries. rewrite <- list_elem_of_In.
  rewrite (merge_sort_Permutation key_le (map_to_list m)).
  apply elem_of_map_to_list.
Qed.

Lemma sortedEntries_NoDup (m : Fields) : NoDup (map fst (sortedEntries m)).
Proof.
  unfold sortedEntries.
  change (map fst ?l) with (fst <$> l).
  rewrite (merge_sort_Permutation key_le (map_to_list m)).
  apply NoDup_fst_map_to_list.
Qed.

(** The entries are written in the order of their keys. *)
Lemma sortedEntries_Sorted (m : Fields) : Sorted key_le (sortedEntries m).
Proof.
  assert (Total key_le) by (intros a b; unfold key_le; apply String.leb_total).
  unfold sortedEntries. by apply (Sorted_merge_sort key_le).
Qed.

(** A key without a byte above 0x7F is found under its own name, with the
    value it has in the map. *)
Lemma member_ascii (L : list (string * Value)) (k : string) (v : Value) :
  is_ascii k = true -> NoDup (map fst L) -> In (k, v) L ->
  member k (map readEntry L) = Some (toJ v).
Proof.
  intros Hk. induction L as [|[k' v'] L IH]; intros Hnd Hin; [done|].
  cbn [map fst] in Hnd. apply NoDup_cons in Hnd as [Hk' Hnd].
  cbn [map readEntry member fst snd].
  destruct (String.eqb_spec k (coerce k')) as [E|E].
  - assert (k' = k) as ->.
    { rewrite E in Hk. apply coerce_ascii_inv in Hk. congruence. }
    destruct Hin as [[= ->]|Hin]; [done|]. exfalso. apply Hk'.
    apply list_elem_of_In, in_map_iff. by exists (k, v).
  - destruct Hin as [[= -> ->]|Hin]; [|by apply IH].
    by rewrite coerce_ascii in E.
Qed.

Lemma reserved_ascii (k : string) : k ∈ reserved -> is_ascii k = true.
Proof.
  unfold reserved. rewrite !elem_of_union, !elem_of_singleton.
  by intros [[-> | ->] | ->].
Qed.

Lemma log_entry_union (r : Logger) (lvl : LogLevel) (msg : string) (now : Time) :
  log_entry r lvl msg now =
    fields r ∪ (<["time" := VString (Format now (timeFormat r))]>
                  (<["message" := VString msg]>
                     (<["level" := VString (LogLevel_String lvl)]> ∅))).
Proof. apply range_assign_union. Qed.

Lemma log_entry_dom (r : Logger) (lvl : LogLevel) (msg : string) (now : Time) :
  dom (log_entry r lvl msg now) = reserved ∪ dom (fields r).
Proof.
  rewrite log_entry_union, dom_union_L, !dom_insert_L, dom_empty_L.
  unfold reserved. apply set_eq. intros x.
  rewrite !elem_of_union, !elem_of_singleton, elem_of_empty. tauto.
Qed.

Lemma LogLevel_String_ascii (lvl : LogLevel) : is_ascii (LogLevel_String lvl) = true.
Proof.
  unfold LogLevel_String, levelNames.
  repeat (rewrite lookup_insert; case_decide; [reflexivity|]).
  by rewrite lookup_empty.
Qed.

(* ===================================================================== *)
(** ** The models run to the end *)
(* ===================================================================== *)

Lemma strip_prefix_length (p s r : string) :
  strip_prefix p s = Some r ->
  String.length s = (String.length p + String.length r)%nat.
Proof.
  revert s. induction p as [|a p IH]; intros s H.
  - by injection H as <-.
  - destruct s as [|b s]; [discriminate|]. simpl in H.
    destruct (byte_eqb a b); [|discriminate]. simpl. by rewrite (IH s).
Qed.

Lemma first_prefix_length (alts : list (string * Std)) (s r : string) (std : Std) :
  Forall (fun a => (1 <= String.length a.1)%nat) alts ->
  first_prefix alts s = Some (std, r) ->
  (String.length r < String.length s)%nat.
Proof.
  induction 1 as [|[p e] alts Hp Halts IH]; [done|]. simpl.
  destruct (strip_prefix p s) as [r'|] eqn:E; [|done].
  intros [= <- <-]. apply strip_prefix_length in E. simpl in Hp. lia.
Qed.

Lemma span_byte_length (ch : ascii) (s r : string) (n : nat) :
  span_byte ch s = (n, r) -> (String.length r <= String.length s)%nat.
Proof.
  revert n r. induction s as [|c s IH]; intros n r H; simpl in H.
  - by injection H as <- <-.
  - destruct (byte_eqb c ch).
    + destruct (span_byte ch s) as [n' r'] eqn:E. injection H as <- <-.
      specialize (IH _ _ eq_refl). simpl. lia.
    + by injection H as <- <-.
Qed.

Lemma fracChunk_length (sep : ascii) (s r : string) (std : Std) :
  fracChunk sep s = Some (std, r) -> (String.length r <= String.length s)%nat.
Proof.
  unfold fracChunk. destruct s as [|ch s']; [done|].
  destruct (_ || _); [|done].
  destruct (span_byte ch (String ch s')) as [n rest] eqn:E.
  apply span_byte_length in E.
  destruct rest as [|d rest'].
  - by intros [= <- <-].
  - destruct (isDigit d); [done|]. by intros [= <- <-].
Qed.

(** An element of the layout takes at least one byte of it. *)
Lemma stdChunkHere_length (layout suffix : string) (std : Std) :
  stdChunkHere layout = Some (std, suffix) ->
  (String.length suffix < String.length layout)%nat.
Proof.
  unfold stdChunkHere. destruct layout as [|c rest]; [done|].
  repeat match goal with
         | |- (if ?b then _ else _) = _ -> _ => destruct b
         | |- match strip_prefix ?p ?s with _ => _ end = _ -> _ =>
             let E := fresh "E" in
             destruct (strip_prefix p s) eqn:E;
             [apply strip_prefix_length in E; simpl in E|]
         end;
    try discriminate;
    try (intros [= <- <-]; simpl in *; lia);
    try (intros H; apply first_prefix_length in H;
         [exact H | repeat constructor; simpl; lia]).
  intros H. apply fracChunk_length in H. simpl. lia.
Qed.

Lemma nextStdChunk_length (layout prefix suffix : string) (std : Std) :
  nextStdChunk layout = (prefix, Some std, suffix) ->
  (String.length suffix < String.length layout)%nat.
Proof.
  revert prefix. induction layout as [|c rest IH]; intros prefix H; [done|].
  cbn [nextStdChunk] in H.
  destruct (stdChunkHere (String c rest)) as [[e sfx]|] eqn:E.
  - injection H as <- <- <-. by apply stdChunkHere_length in E.
  - destruct (nextStdChunk rest) as [[p e] sfx] eqn:E'.
    injection H as <- -> <-. specialize (IH _ eq_refl). simpl. lia.
Qed.

(** The loop of [Format] never stops for want of rounds: more rounds than
    the layout has bytes change nothing. *)
Lemma appendFormat_enough (t : Time) (n : nat) :
  forall (layout : string) (k1 k2 : nat),
    (String.length layout <= n)%nat -> (n <= k1)%nat -> (n <= k2)%nat ->
    appendFormat k1 layout t = appendFormat k2 layout t.
Proof.
  induction n as [|n IH]; intros layout k1 k2 Hlen H1 H2.
  - destruct layout; [|simpl in Hlen; lia]. by destruct k1, k2.
  - destruct k1 as [|k1]; [lia|]. destruct k2 as [|k2]; [lia|].
    cbn [appendFormat]. destruct layout as [|c rest]; [done|].
    destruct (nextStdChunk (String c rest)) as [[prefix std] suffix] eqn:E.
    destruct std as [e|]; [|done].
    apply nextStdChunk_length in E.
    by rewrite (IH suffix k1 k2) by lia.
Qed.

Lemma Format_rounds (t : Time) (layout : string) (k : nat) :
  (String.length layout <= k)%nat -> appendFormat k layout t = Format t layout.
Proof.
  intros H. unfold Format.
  apply (appendFormat_enough t (String.length layout)); lia.
Qed.

(** The digits written for [n] stand for [n]: none is lost for want of
    fuel. *)
Lemma utoa_go_value (fuel : nat) :
  forall (n : N) (acc : string),
    (n < 2 ^ N.of_nat (S fuel))%N ->
    dec_value 0 (utoa_go fuel n acc) = dec_value n acc.
Proof.
  induction fuel as [|fuel IH]; intros n acc Hlt.
  - change (2 ^ N.of_nat 1)%N with 2%N in Hlt. cbn [utoa_go].
    rewrite N.mod_small by lia. cbn [dec_value].
    rewrite digit_char_val by lia. f_equal. lia.
  - cbn [utoa_go].
    pose proof (N.mod_upper_bound n 10 ltac:(lia)) as Hm.
    pose proof (N.div_mod' n 10) as Hd.
    destruct (N.eqb_spec (n / 10) 0%N) as [Hq|Hq].
    + cbn [dec_value]. rewrite digit_char_val by done. f_equal.
      rewrite Hq in Hd. name_divmod. lia.
    + rewrite IH.
      * cbn [dec_value]. rewrite digit_char_val by done. f_equal.
        clear Hlt Hq. name_divmod. lia.
      * rewrite (Nat2N.inj_succ (S fuel)), N.pow_succ_r' in Hlt.
        apply N.Div0.div_lt_upper_bound. lia.
Qed.

Lemma utoa_value (n : N) : dec_value 0 (utoa n) = n.
Proof.
  unfold utoa. destruct (N.eq_dec n 0%N) as [->|Hn]; [done|].
  rewrite utoa_go_value; [done|].
  rewrite Nat2N.inj_succ, N2Nat.id. apply N.log2_spec. lia.
Qed.

(* ===================================================================== *)
(** ** One line: no control byte in a marshalled value *)
(* ===================================================================== *)

Lemma no_control_app (s t : string) :
  no_control (s ++ t) = no_control s && no_control t.
Proof.
  induction s as [|c s IH]; [done|].
  rewrite str_app_cons. simpl. by rewrite IH, andb_assoc.
Qed.

Lemma no_control_high (s : string) : all_high s = true -> no_control s = true.
Proof.
  induction s as [|c s IH]; [done|]. simpl. intros H.
  apply andb_prop in H as [Hc H]. apply N.leb_le in Hc.
  rewrite IH by done. rewrite andb_true_r. apply N.leb_le. lia.
Qed.

Lemma no_control_digits (s : string) : all_digits s = true -> no_control s = true.
Proof.
  induction s as [|c s IH]; [done|]. simpl. intros H.
  apply andb_prop in H as [Hc H]. apply andb_prop in Hc as [Hc _].
  apply N.leb_le in Hc. rewrite IH by done. rewrite andb_true_r.
  apply N.leb_le. lia.
Qed.

Lemma no_control_escapeByte (c : ascii) : no_control (escapeByte c) = true.
Proof.
  revert c. apply (byte_forallb (fun c => no_control (escapeByte c))).
  vm_compute. reflexivity.
Qed.

Lemma no_control_appendString_go (s : string) :
  forall skip : nat, no_control (appendString_go skip s) = true.
Proof.
  induction s as [|c s IH]; intros skip; [done|].
  cbn [appendString_go]. rewrite no_control_app, IH, andb_true_r.
  destruct (classify skip (String c s)) as [|c'| |r size bytes] eqn:Ha.
  - done.
  - destruct (htmlSafe c') eqn:Hs; [|apply no_control_escapeByte].
    apply htmlSafe_plain in Hs as (_ & _ & Hs). simpl.
    rewrite andb_true_r. by apply N.leb_le.
  - done.
  - destruct (_ || _) eqn:Hr.
    + apply orb_prop in Hr. rewrite !N.eqb_eq in Hr. by destruct Hr as [-> | ->].
    + assert (skip = 0%nat) as -> by (destruct skip; [done | discriminate]).
      apply classify_Rune in Ha as (_ & _ & _ & Hhigh & _).
      by apply no_control_high.
Qed.

Lemma no_control_appendString (s : string) : no_control (appendString s) = true.
Proof.
  unfold appendString. by rewrite !no_control_app, no_control_appendString_go.
Qed.

Lemma no_control_itoa (z : Z) : no_control (itoa z) = true.
Proof.
  assert (H : forall n, no_control (utoa n) = true).
  { intros n. destruct (utoa_digits n) as [[-> ->]|(d & ds & -> & Hd & Hds)];
      [done|]. simpl. rewrite no_control_digits by done.
    rewrite andb_true_r. apply N.leb_le. lia. }
  unfold itoa. destruct (z <? 0); [|apply H]. simpl. by rewrite H.
Qed.

Lemma no_control_encodeElems (vs : list Value) :
  Forall (fun v => forall out, encode v = Ok out -> no_control out = true) vs ->
  forall body, encodeElems encode vs = Ok body -> no_control body = true.
Proof.
  induction 1 as [|v vs Hv Hvs IH]; intros body Hbody; cbn [encodeElems] in Hbody.
  - by injection Hbody as <-.
  - destruct (encode v) as [o|] eqn:Ho; [|discriminate].
    destruct vs as [|v' vs'].
    + injection Hbody as <-. by apply Hv.
    + destruct (encodeElems encode (v' :: vs')) as [r|] eqn:Hr; [|discriminate].
      injection Hbody as <-.
      by rewrite !no_control_app, (Hv o), (IH r).
Qed.

Lemma no_control_encodeMembers (kvs : list (string * Value)) :
  Forall (fun kv => forall out, encode kv.2 = Ok out -> no_control out = true) kvs ->
  forall body, encodeMembers encode kvs = Ok body -> no_control body = true.
Proof.
  induction 1 as [|[k v] kvs Hv Hkvs IH]; intros body Hbody;
    cbn [encodeMembers] in Hbody.
  - by injection Hbody as <-.
  - destruct (encode v) as [o|] eqn:Ho; [|discriminate].
    apply Hv in Ho.
    destruct kvs as [|kv' kvs'].
    + injection Hbody as <-.
      by rewrite !no_control_app, no_control_appendString, Ho.
    + destruct (encodeMembers encode (kv' :: kvs')) as [r|] eqn:Hr; [|discriminate].
      injection Hbody as <-.
      by rewrite !no_control_app, no_control_appendString, Ho, (IH r).
Qed.

Lemma no_control_encode (v : Value) :
  forall out, encode v = Ok out -> no_control out = true.
Proof.
  induction v as [ |b|n|s|vs IH|kvs IH|typ|typ msg] using Value_nested_ind;
    intros out Hout; cbn [encode] in Hout; try discriminate.
  - by injection Hout as <-.
  - injection Hout as <-. by destruct b.
  - injection Hout as <-. apply no_control_itoa.
  - injection Hout as <-. apply no_control_appendString.
  - destruct (encodeElems encode vs) as [body|] eqn:Hbody; [|discriminate].
    injection Hout as <-.
    by rewrite !no_control_app, (no_control_encodeElems vs IH body).
  - destruct (encodeMembers encode kvs) as [body|] eqn:Hbody; [|discriminate].
    injection Hout as <-.
    by rewrite !no_control_app, (no_control_encodeMembers kvs IH body).
Qed.

(** What [json.Marshal] returns has no control byte in it: it is one
    line. *)
Lemma no_control_Marshal (m : Fields) (out : string) :
  Marshal m = Ok out -> no_control out = true.
Proof. apply no_control_encode. Qed.

(* ===================================================================== *)
(** ** The emitted line *)
(* ===================================================================== *)

(** C2, as the code has it: a line written by the normal path of [log],
    which writes one when the sink of the logger is there, is
    the marshalled entry followed by one newline, the entry has no newline
    (no control byte at all) in it, and it is a JSON text, an object.  Its keys are level, message, time and the keys of the
    field set of the logger, each as [json.Marshal] writes a string: coerced
    to valid UTF-8, every byte outside a valid encoding replaced by U+FFFD,
    and so unchanged when the key is valid UTF-8.  Unless a field of that
    name replaces it, level is the display name of the severity, message is
    the text of the call coerced in the same way, and time is the rendered
    time; a field called level, message or time replaces the value [log]
    wrote, and every field is a member of the object. *)
Theorem emitted_line_is_json (w : World) (l : loc) (r : Logger)
    (lvl : LogLevel) (msg out : string) :
  loggers w !! l = Some r ->
  level r <= lvl ->
  Marshal (log_entry r lvl msg (clock w (ticks w))) = Ok out ->
  (is_sink (output r) = true ->
   Logger.log l lvl msg w
     = (Return tt, emitted w (output r) (out ++ newline) 1)) /\
  no_control out = true /\
  exists kvs : list (string * JValue),
    parse out = Some (JObject kvs) /\
    (forall k, In k (map fst kvs) <->
               exists k0, k0 ∈ reserved ∪ dom (fields r) /\ k = coerce k0) /\
    (fields r !! "level" = None ->
     member "level" kvs = Some (JString (LogLevel_String lvl))) /\
    (fields r !! "message" = None ->
     member "message" kvs = Some (JString (coerce msg))) /\
    (fields r !! "time" = None ->
     member "time" kvs
       = Some (JString (coerce (Format (clock w (ticks w)) (timeFormat r))))) /\
    (forall k v, k ∈ reserved -> fields r !! k = Some v ->
                 member k kvs = Some (toJ v)) /\
    (forall k v, fields r !! k = Some v -> In (coerce k, toJ v) kvs) /\
    (forall s, ValidString s = true -> coerce s = s).
Proof.
  intros Hl Hlvl Hout. split.
  { intros Hs. rewrite (log_run _ _ _ _ _ Hl), Hout.
    destruct (Z.ltb_spec lvl (level r)); [lia | by apply line_out_sink]. }
  split; [by apply no_control_Marshal in Hout|].
  set (now := clock w (ticks w)) in *.
  set (entry := log_entry r lvl msg now) in *.
  exists (map readEntry (sortedEntries entry)).
  split; [by apply parse_Marshal|].
  pose proof (sortedEntries_NoDup entry) as Hnd.
  assert (Hfield : forall k v, fields r !! k = Some v -> entry !! k = Some v).
  { intros k v Hk. unfold entry. rewrite log_entry_union.
    by apply lookup_union_Some_l. }
  assert (Hown : forall k v,
             fields r !! k = None ->
             (<["time" := VString (Format now (timeFormat r))]>
                (<["message" := VString msg]>
                   (<["level" := VString (LogLevel_String lvl)]> ∅))
              : Fields) !! k = Some v ->
             entry !! k = Some v).
  { intros k v Hk Hv. unfold entry. rewrite log_entry_union.
    by rewrite lookup_union_r. }
  split; [|split; [|split; [|split; [|split; [|split]]]]].
  - intros k. rewrite map_map, in_map_iff. split.
    + intros ([k0 v0] & <- & Hin). exists k0. split; [|done].
      apply sortedEntries_elem in Hin.
      unfold entry in Hin. rewrite <- log_entry_dom with (lvl := lvl) (msg := msg) (now := now).
      apply elem_of_dom. by eexists.
    + intros (k0 & Hk0 & ->).
      rewrite <- log_entry_dom with (lvl := lvl) (msg := msg) (now := now) in Hk0.
      apply elem_of_dom in Hk0 as [v0 Hv0].
      exists (k0, v0). split; [done|]. by apply sortedEntries_elem.
  - intros Hnone.
    rewrite (member_ascii _ "level" (VString (LogLevel_String lvl))); try done.
    + cbn [toJ]. by rewrite coerce_ascii by apply LogLevel_String_ascii.
    + apply sortedEntries_elem, Hown; [done|]. by simplify_map_eq.
  - intros Hnone.
    rewrite (member_ascii _ "message" (VString msg)); try done.
    apply sortedEntries_elem, Hown; [done|]. by simplify_map_eq.
  - intros Hnone.
    rewrite (member_ascii _ "time" (VString (Format now (timeFormat r)))); try done.
    apply sortedEntries_elem, Hown; [done|]. by simplify_map_eq.
  - intros k v Hk Hv. apply member_ascii; [by apply reserved_ascii | done |].
    by apply sortedEntries_elem, Hfield.
  - intros k v Hv. apply in_map_iff. exists (k, v). split; [done|].
    by apply sortedEntries_elem, Hfield.
  - apply coerce_valid.
Qed.

Lemma emitted_line_is_json_witness :
  Logger.log derived LevelError "boom" (world_with_field "req_id" (VString "abc123")) =
    (Return tt,
     emitted (world_with_field "req_id" (VString "abc123")) os_Stdout
       (("{" ++ quoted "level" ++ ":" ++ quoted "ERROR" ++ ","
           ++ quoted "message" ++ ":" ++ quoted "boom" ++ ","
           ++ quoted "req_id" ++ ":" ++ quoted "abc123" ++ ","
           ++ quoted "time" ++ ":" ++ quoted "2024-01-02 15:04:00" ++ "}")
          ++ newline) 1).
Proof.
  refine (proj1 (emitted_line_is_json
                   (world_with_field "req_id" (VString "abc123")) derived
                   (mkLogger LevelInfo 0%nat (<["req_id" := VString "abc123"]> ∅)
                      os_Stdout "2006-01-02 15:04:05")
                   LevelError "boom" _ _ _ _) eq_refl).
  - reflexivity.
  - simpl. unfold LevelInfo, LevelError. lia.
  - vm_compute. reflexivity.
Defined.

(** C2 as stated fails on a message that is not valid UTF-8: the byte 0xFF
    is written as the escape of U+FFFD, so the line is a JSON object whose
    message is the three bytes EF BF BD and not the text given to the
    call. *)
Lemma message_not_preserved :
  exists (out : string) (kvs : list (string * JValue)),
    written (Logger.Info defaultLogger (String (byte_of 0xFF) "") sample_world).2
      = [(os_Stdout, out ++ newline)] /\
    parse out = Some (JObject kvs) /\
    member "message" kvs
      = Some (JString (String (byte_of 0xEF) (String (byte_of 0xBF)
                                 (String (byte_of 0xBD) "")))) /\
    ValidString (String (byte_of 0xFF) "") = false /\
    String.eqb (String (byte_of 0xEF) (String (byte_of 0xBF) (String (byte_of 0xBD) "")))
      (String (byte_of 0xFF) "") = false.
Proof.
  eexists
    ("{" ++ quoted "level" ++ ":" ++ quoted "INFO" ++ ","
       ++ quoted "message" ++ ":" ++ quoted "\ufffd" ++ ","
       ++ quoted "time" ++ ":" ++ quoted "2024-01-02 15:04:00" ++ "}"), _.
  split; [vm_compute; reflexivity|].
  split; [vm_compute; reflexivity|].
  repeat split; vm_compute; reflexivity.
Qed.

(* ===================================================================== *)
(** ** The fallback line *)
(* ===================================================================== *)










(** The reader rejects a text whatever the fuel: the failure is met within
    the first eight levels of calls. *)
Ltac no_fuel_parses :=
  let H := fresh "H" in
  let fuel := fresh "fuel" in
  intros (fuel & ? & ? & H & _);
  do 8 (destruct fuel as [|fuel]; [vm_compute in H; discriminate|]);
  vm_compute in H; discriminate.

(** C10: the error text and the time go into the fallback line as they are,
    with no escaping; an error text or a time format with a double quote in
    it gives a line that is not a JSON text (the reader rejects it, with any
    amount of fuel), where the ordinary error of an unsupported type gives
    one that is. *)
Theorem fallback_line_not_escaped :
  (forall err ts : string,
     fmt_Sprintf Logger.fallback_format [err; ts] = fallback_line err ts) /\
  (exists line : string,
     written
       (Logger.Info derived "m"
          (world_with_field "v" (VMarshalerError "main.T" (quoted "x")))).2
       = [(os_Stdout, line ++ newline)] /\
     line = fallback_line
              ("json: error calling MarshalJSON for type main.T: " ++ quoted "x")
              "2024-01-02 15:04:01" /\
     parse line = None /\ ~ is_json_text line) /\
  (exists line : string,
     written
       (Logger.Info derived "m"
          (world_with_layout "v" (VUnsupported "chan int") (quote ++ "15:04"))).2
       = [(os_Stdout, line ++ newline)] /\
     line = fallback_line "json: unsupported type: chan int" (quote ++ "15:04") /\
     parse line = None /\ ~ is_json_text line) /\
  (exists (line : string) (kvs : list (string * JValue)),
     written
       (Logger.Info derived "m"
          (world_with_field "v" (VUnsupported "chan int"))).2
       = [(os_Stdout, line ++ newline)] /\
     parse line = Some (JObject kvs)).
Proof.
  split; [exact fmt_Sprintf_fallback|].
  split; [|split].
  - exists (fallback_line
              ("json: error calling MarshalJSON for type main.T: " ++ quoted "x")
              "2024-01-02 15:04:01").
    split; [vm_compute; reflexivity|].
    split; [reflexivity|]. split; [vm_compute; reflexivity | no_fuel_parses].
  - exists (fallback_line "json: unsupported type: chan int" (quote ++ "15:04")).
    split; [vm_compute; reflexivity|].
    split; [reflexivity|]. split; [vm_compute; reflexivity | no_fuel_parses].
  - exists (fallback_line "json: unsupported type: chan int" "2024-01-02 15:04:01").
    eexists. split; vm_compute; reflexivity.
Qed.
(* ===================================================================== *)
(** ** The setters *)
(* ===================================================================== *)

Lemma SetLevel_step (w : World) (l : loc) (r : Logger) (lvl : LogLevel) :
  loggers w !! l = Some r ->
  Logger.SetLevel l lvl w = (Return l, with_logger w l (with_level r lvl)).
Proof.
  intros Hl. unfold Logger.SetLevel.
  by rewrite (bind_Return _ _ _ _ _ (deref_Some _ _ _ Hl)).
Qed.

Lemma SetTimeFormat_step (w : World) (l : loc) (r : Logger) (f : string) :
  loggers w !! l = Some r ->
  Logger.SetTimeFormat l f w = (Return l, with_logger w l (with_timeFormat r f)).
Proof.
  intros Hl. unfold Logger.SetTimeFormat.
  by rewrite (bind_Return _ _ _ _ _ (deref_Some _ _ _ Hl)).
Qed.

Lemma SetOutput_step (w : World) (l : loc) (r : Logger) (s : StdLogger)
    (out : Writer) :
  loggers w !! l = Some r -> stdloggers w !! logger r = Some s ->
  Logger.SetOutput l out w =
    (Return l, with_std_output (with_logger w l (with_output r out)) (logger r) out s).
Proof.
  intros Hl Hs. unfold Logger.SetOutput.
  rewrite (bind_Return _ _ _ _ _ (deref_Some _ _ _ Hl)).
  unfold mbind, M_bind, bind, assign, log_SetOutput. simpl. by rewrite Hs.
Qed.

Lemma with_logger_lookup (w : World) (l : loc) (r : Logger) :
  loggers (with_logger w l r) !! l = Some r.
Proof. apply lookup_insert_eq. Qed.

Lemma with_logger_twice (w : World) (l : loc) (r r' : Logger) :
  with_logger (with_logger w l r) l r' = with_logger w l r'.
Proof. unfold with_logger. simpl. by rewrite insert_insert_eq. Qed.

(** What [log] does in a world where only some [log.Logger] differs. *)
Lemma log_run_std (w : World) (ls : loc) (out : Writer) (s : StdLogger)
    (l : loc) (r : Logger) (lvl : LogLevel) (msg : string) :
  loggers w !! l = Some r ->
  written (Logger.log l lvl msg (with_std_output w ls out s)).2
    = written (Logger.log l lvl msg w).2 /\
  (Logger.log l lvl msg (with_std_output w ls out s)).1 = (Logger.log l lvl msg w).1.
Proof.
  intros Hl.
  rewrite (log_run w l r lvl msg Hl).
  rewrite (log_run (with_std_output w ls out s) l r lvl msg Hl). simpl.
  destruct (lvl <? level r); [done|]. unfold line_out.
  by destruct (Marshal _); destruct (is_sink (output r)).
Qed.



(** X3: a setter called twice leaves what the second call alone leaves: the
    last value wins, and the same value twice is the same as once. *)
Theorem setters_last_wins (w : World) (l : loc) (r : Logger) (s : StdLogger) :
  loggers w !! l = Some r -> stdloggers w !! logger r = Some s ->
  (forall a b : LogLevel,
     (l' ← Logger.SetLevel l a; Logger.SetLevel l' b) w = Logger.SetLevel l b w) /\
  (forall f g : string,
     (l' ← Logger.SetTimeFormat l f; Logger.SetTimeFormat l' g) w
       = Logger.SetTimeFormat l g w) /\
  (forall o1 o2 : Writer,
     (l' ← Logger.SetOutput l o1; Logger.SetOutput l' o2) w = Logger.SetOutput l o2 w).
Proof.
  intros Hl Hs. split; [|split].
  - intros a b. rewrite (bind_Return _ _ _ _ _ (SetLevel_step _ _ _ a Hl)).
    rewrite (SetLevel_step _ _ _ b (with_logger_lookup _ _ _)).
    rewrite (SetLevel_step _ _ _ b Hl). by rewrite with_logger_twice.
  - intros f g. rewrite (bind_Return _ _ _ _ _ (SetTimeFormat_step _ _ _ f Hl)).
    rewrite (SetTimeFormat_step _ _ _ g (with_logger_lookup _ _ _)).
    rewrite (SetTimeFormat_step _ _ _ g Hl). by rewrite with_logger_twice.
  - intros o1 o2. rewrite (bind_Return _ _ _ _ _ (SetOutput_step _ _ _ _ o1 Hl Hs)).
    erewrite (SetOutput_step _ l (with_output r o1) _ o2);
      [|apply lookup_insert_eq|apply lookup_insert_eq].
    rewrite (SetOutput_step _ _ _ _ o2 Hl Hs).
    unfold with_std_output, with_logger, with_output. simpl.
    by rewrite !insert_insert_eq.
Qed.

Lemma setters_last_wins_witness :
  (l' ← Logger.SetLevel defaultLogger LevelWarn; Logger.SetLevel l' LevelDebug)
    sample_world = Logger.SetLevel defaultLogger LevelDebug sample_world.
Proof.
  assert (Hl : loggers sample_world !! defaultLogger
               = Some (mkLogger LevelInfo 0%nat ∅ os_Stdout "2006-01-02 15:04:05"))
    by reflexivity.
  assert (Hs : stdloggers sample_world !! 0%nat
               = Some (mkStdLogger os_Stdout "" log_LstdFlags)) by reflexivity.
  exact (proj1 (setters_last_wins _ _ _ _ Hl Hs) LevelWarn LevelDebug).
Defined.

(** X4: the three setters act on different parts of a logger, so the order
    in which two of them are called makes no difference. *)
Theorem setters_commute (w : World) (l : loc) (r : Logger) (s : StdLogger)
    (lvl : LogLevel) (f : string) (out : Writer) :
  loggers w !! l = Some r -> stdloggers w !! logger r = Some s ->
  (l' ← Logger.SetLevel l lvl; Logger.SetTimeFormat l' f) w
    = (l' ← Logger.SetTimeFormat l f; Logger.SetLevel l' lvl) w /\
  (l' ← Logger.SetLevel l lvl; Logger.SetOutput l' out) w
    = (l' ← Logger.SetOutput l out; Logger.SetLevel l' lvl) w /\
  (l' ← Logger.SetTimeFormat l f; Logger.SetOutput l' out) w
    = (l' ← Logger.SetOutput l out; Logger.SetTimeFormat l' f) w.
Proof.
  intros Hl Hs. split; [|split].
  - rewrite (bind_Return _ _ _ _ _ (SetLevel_step _ _ _ lvl Hl)).
    rewrite (bind_Return _ _ _ _ _ (SetTimeFormat_step _ _ _ f Hl)).
    rewrite (SetTimeFormat_step _ _ _ f (with_logger_lookup _ _ _)).
    rewrite (SetLevel_step _ _ _ lvl (with_logger_lookup _ _ _)).
    by rewrite !with_logger_twice.
  - rewrite (bind_Return _ _ _ _ _ (SetLevel_step _ _ _ lvl Hl)).
    rewrite (bind_Return _ _ _ _ _ (SetOutput_step _ _ _ _ out Hl Hs)).
    erewrite (SetOutput_step _ l (with_level r lvl) _ out);
      [|apply lookup_insert_eq|exact Hs].
    erewrite (SetLevel_step _ l (with_output r out) lvl);
      [|apply lookup_insert_eq].
    unfold with_std_output, with_logger, with_output, with_level. simpl.
    by rewrite !insert_insert_eq.
  - rewrite (bind_Return _ _ _ _ _ (SetTimeFormat_step _ _ _ f Hl)).
    rewrite (bind_Return _ _ _ _ _ (SetOutput_step _ _ _ _ out Hl Hs)).
    erewrite (SetOutput_step _ l (with_timeFormat r f) _ out);
      [|apply lookup_insert_eq|exact Hs].
    erewrite (SetTimeFormat_step _ l (with_output r out) f);
      [|apply lookup_insert_eq].
    unfold with_std_output, with_logger, with_output, with_timeFormat. simpl.
    by rewrite !insert_insert_eq.
Qed.

Lemma setters_commute_witness :
  (l' ← Logger.SetLevel defaultLogger LevelWarn; Logger.SetOutput l' (Sink 7))
    sample_world
  = (l' ← Logger.SetOutput defaultLogger (Sink 7); Logger.SetLevel l' LevelWarn)
      sample_world.
Proof.
  assert (Hl : loggers sample_world !! defaultLogger
               = Some (mkLogger LevelInfo 0%nat ∅ os_Stdout "2006-01-02 15:04:05"))
    by reflexivity.
  assert (Hs : stdloggers sample_world !! 0%nat
               = Some (mkStdLogger os_Stdout "" log_LstdFlags)) by reflexivity.
  exact (proj1 (proj2 (setters_commute _ _ _ _ LevelWarn "15:04" (Sink 7) Hl Hs))).
Defined.
(* ===================================================================== *)
(** ** A logger that is not there *)
(* ===================================================================== *)

Lemma deref_None {B} (l : loc) (k : Logger -> M B) (w : World) :
  loggers w !! l = None -> (deref l ≫= k) w = (Panicked NilDereference, w).
Proof. intros H. unfold mbind, M_bind, bind, deref. by rewrite H. Qed.

Lemma log_None (w : World) (l : loc) (lvl : LogLevel) (msg : string) :
  loggers w !! l = None -> Logger.log l lvl msg w = (Panicked NilDereference, w).
Proof. intros H. unfold Logger.log. by apply deref_None. Qed.

(** X14: every method called on a pointer that holds no logger (the nil
    pointer) ends in a nil-dereference panic and leaves the world as it was;
    [Fatal] does not get as far as the exit, nor [Panic] as far as the panic
    with the message. *)
Theorem nil_logger_panics (w : World) (l : loc) :
  loggers w !! l = None ->
  (forall lvl, Logger.SetLevel l lvl w = (Panicked NilDereference, w)) /\
  (forall out, Logger.SetOutput l out w = (Panicked NilDereference, w)) /\
  (forall f, Logger.SetTimeFormat l f w = (Panicked NilDereference, w)) /\
  (forall k v, Logger.AddField l k v w = (Panicked NilDereference, w)) /\
  (forall F, Logger.AddFields l F w = (Panicked NilDereference, w)) /\
  (forall lvl msg, Logger.log l lvl msg w = (Panicked NilDereference, w)) /\
  (forall msg, Logger.Debug l msg w = (Panicked NilDereference, w)) /\
  (forall msg, Logger.Info l msg w = (Panicked NilDereference, w)) /\
  (forall msg, Logger.Warn l msg w = (Panicked NilDereference, w)) /\
  (forall msg, Logger.Error l msg w = (Panicked NilDereference, w)) /\
  (forall msg, Logger.Fatal l msg w = (Panicked NilDereference, w)) /\
  (forall msg, Logger.Panic l msg w = (Panicked NilDereference, w)).
Proof.
  intros H.
  repeat split; intros;
    try (by apply deref_None); try (by apply log_None).
  - unfold Logger.Fatal, mbind, M_bind, bind. by rewrite log_None.
  - unfold Logger.Panic, mbind, M_bind, bind. by rewrite log_None.
Qed.

Lemma nil_logger_panics_witness :
  Logger.Fatal 5%nat "dying" sample_world = (Panicked NilDereference, sample_world) /\
  Logger.AddField 5%nat "k" VNil sample_world = (Panicked NilDereference, sample_world).
Proof.
  split; apply (nil_logger_panics sample_world 5%nat eq_refl).
Defined.

(* ===================================================================== *)
(** ** The heap stays well formed *)
(* ===================================================================== *)

Lemma heap_ok_with_logger (w : World) (l : loc) (r : Logger) :
  heap_ok w -> is_Some (stdloggers w !! logger r) -> heap_ok (with_logger w l r).
Proof.
  intros Hw Hr l0 r0. simpl. rewrite lookup_insert. case_decide.
  - by intros [= <-].
  - apply Hw.
Qed.

Lemma heap_ok_with_std_output (w : World) (l : loc) (out : Writer) (s : StdLogger) :
  heap_ok w -> heap_ok (with_std_output w l out s).
Proof.
  intros Hw l0 r0 H0. simpl in *. rewrite lookup_insert. case_decide; [done|].
  by apply (Hw l0).
Qed.

Lemma heap_ok_log (w : World) (l : loc) (lvl : LogLevel) (msg : string) :
  heap_ok w -> heap_ok (Logger.log l lvl msg w).2.
Proof.
  intros Hw. destruct (loggers w !! l) as [r|] eqn:Hl.
  - rewrite (log_run _ _ _ lvl msg Hl).
    destruct (lvl <? level r); [done|]. unfold line_out.
    by destruct (Marshal _); destruct (is_sink (output r)).
  - by rewrite log_None.
Qed.

(** X15: in the world package initialisation leaves, and in every world
    reached from it by [New] and the methods, each logger holds a
    [log.Logger] that exists; so [SetOutput] on a logger of such a world
    always returns, and returns its receiver. *)
Theorem heap_stays_ok (w : World) :
  heap_ok w ->
  (forall out, heap_ok (New out w).2) /\
  (forall l lvl, heap_ok (Logger.SetLevel l lvl w).2) /\
  (forall l out, heap_ok (Logger.SetOutput l out w).2) /\
  (forall l f, heap_ok (Logger.SetTimeFormat l f w).2) /\
  (forall l k v, heap_ok (Logger.AddField l k v w).2) /\
  (forall l F, heap_ok (Logger.AddFields l F w).2) /\
  (forall l lvl msg, heap_ok (Logger.log l lvl msg w).2) /\
  (forall l msg, heap_ok (Logger.Fatal l msg w).2) /\
  (forall l msg, heap_ok (Logger.Panic l msg w).2) /\
  (forall l r out, loggers w !! l = Some r ->
                   (Logger.SetOutput l out w).1 = Return l) /\
  (forall c, heap_ok (init_world c)).
Proof.
  intros Hw.
  split.
  { intros out l r. rewrite New_run. simpl. intros H.
    apply lookup_insert_Some in H as [[_ <-]|[_ H]]; simpl.
    - rewrite lookup_insert_eq. by eexists.
    - destruct (Hw l r H) as [s Hs]. rewrite lookup_insert. case_decide; by eexists. }
  split.
  { intros l lvl. destruct (loggers w !! l) as [r|] eqn:Hl.
    - rewrite (SetLevel_step _ _ _ lvl Hl). simpl.
      apply heap_ok_with_logger; [done | exact (Hw l r Hl)].
    - unfold Logger.SetLevel. by rewrite deref_None. }
  split.
  { intros l out. destruct (loggers w !! l) as [r|] eqn:Hl.
    - destruct (Hw l r Hl) as [s Hs].
      rewrite (SetOutput_step _ _ _ _ out Hl Hs). simpl.
      apply heap_ok_with_std_output, heap_ok_with_logger; [done | by eexists].
    - unfold Logger.SetOutput. by rewrite deref_None. }
  split.
  { intros l f. destruct (loggers w !! l) as [r|] eqn:Hl.
    - rewrite (SetTimeFormat_step _ _ _ f Hl). simpl.
      apply heap_ok_with_logger; [done | exact (Hw l r Hl)].
    - unfold Logger.SetTimeFormat. by rewrite deref_None. }
  split.
  { intros l k v. destruct (loggers w !! l) as [r|] eqn:Hl.
    - rewrite (AddField_run _ _ _ k v Hl). simpl.
      apply heap_ok_with_logger; [done | exact (Hw l r Hl)].
    - unfold Logger.AddField. by rewrite deref_None. }
  split.
  { intros l F. destruct (loggers w !! l) as [r|] eqn:Hl.
    - rewrite (AddFields_run _ _ _ F Hl). simpl.
      apply heap_ok_with_logger; [done | exact (Hw l r Hl)].
    - unfold Logger.AddFields. by rewrite deref_None. }
  split; [intros; by apply heap_ok_log|].
  split.
  { intros l msg. pose proof (heap_ok_log w l LevelFatal msg Hw) as H.
    unfold Logger.Fatal, mbind, M_bind, bind.
    by destruct (Logger.log l LevelFatal msg w) as [[ | | ] w']. }
  split.
  { intros l msg. pose proof (heap_ok_log w l LevelPanic msg Hw) as H.
    unfold Logger.Panic, mbind, M_bind, bind.
    by destruct (Logger.log l LevelPanic msg w) as [[ | | ] w']. }
  split.
  { intros l r out Hl. destruct (Hw l r Hl) as [s Hs].
    by rewrite (SetOutput_step _ _ _ _ out Hl Hs). }
  intros c l r. unfold init_world. rewrite New_run. simpl. intros H.
  apply lookup_insert_Some in H as [[_ <-]|[_ H]]; [|done].
  simpl. rewrite lookup_insert_eq. by eexists.
Qed.

Lemma heap_stays_ok_witness :
  heap_ok (Logger.AddField defaultLogger "k" VNil sample_world).2 /\
  (Logger.SetOutput defaultLogger (Sink 7) sample_world).1 = Return defaultLogger.
Proof.
  assert (H0 : heap_ok sample_world).
  { intros l r H. unfold sample_world, init_world in *. rewrite New_run in *.
    simpl in *. apply lookup_insert_Some in H as [[_ <-]|[_ H]]; [|done].
    simpl. rewrite lookup_insert_eq. by eexists. }
  split.
  - exact (proj1 (proj2 (proj2 (proj2 (proj2 (heap_stays_ok sample_world H0)))))
             defaultLogger "k" VNil).
  - exact (proj1 (proj2 (proj2 (proj2 (proj2 (proj2 (proj2 (proj2 (proj2 (proj2
             (heap_stays_ok sample_world H0))))))))))
             defaultLogger _ (Sink 7) eq_refl).
Defined.
(* ===================================================================== *)
(** ** Derived loggers *)
(* ===================================================================== *)

(** X6: [AddField(key, value)] does what [AddFields] does with the map that
    holds that one entry: the same logger is returned and the same world is
    left, whether the receiver is there or not. *)
Theorem AddField_is_AddFields_singleton (w : World) (l : loc) (key : string)
    (value : Value) :
  Logger.AddField l key value w = Logger.AddFields l {[key := value]} w.
Proof.
  destruct (loggers w !! l) as [r|] eqn:Hl.
  - rewrite (AddField_run _ _ _ key value Hl), (AddFields_run _ _ _ _ Hl).
    by rewrite insert_union_singleton_l.
  - unfold Logger.AddField, Logger.AddFields. by rewrite !deref_None.
Qed.

(** X7: adding a field under a key that a derived logger already has
    replaces the value: after [AddField(key, v1)] and then [AddField(key,
    v2)] the field set is the original one with [key] mapped to [v2], and
    adding the same value twice gives the field set that adding it once
    gives. *)
Theorem AddField_overwrites (w : World) (l : loc) (r : Logger) (key : string)
    (v1 v2 : Value) :
  loggers w !! l = Some r ->
  exists (l1 l2 : loc) (w1 w2 : World) (r1 r2 : Logger),
    Logger.AddField l key v1 w = (Return l1, w1) /\
    Logger.AddField l1 key v2 w1 = (Return l2, w2) /\
    loggers w2 !! l1 = Some r1 /\ loggers w2 !! l2 = Some r2 /\
    fields r1 = <[key := v1]> (fields r) /\
    fields r2 = <[key := v2]> (fields r) /\
    (v1 = v2 -> fields r2 = fields r1) /\
    loggers w2 !! l = Some r.
Proof.
  intros Hl.
  pose proof (AddField_run w l r key v1 Hl) as H1.
  pose proof (fresh_loc_None w) as Hf1.
  set (l1 := fresh (dom (loggers w))) in *.
  set (r1 := mkLogger (level r) (logger r) (<[key := v1]> (fields r))
               (output r) (timeFormat r)) in *.
  set (w1 := with_logger w l1 r1) in *.
  assert (Hl1 : loggers w1 !! l1 = Some r1) by apply lookup_insert_eq.
  pose proof (AddField_run w1 l1 r1 key v2 Hl1) as H2.
  pose proof (fresh_loc_None w1) as Hf2.
  set (l2 := fresh (dom (loggers w1))) in *.
  assert (Hne1 : l1 <> l) by (intros E; rewrite E in Hf1; congruence).
  assert (Hne2 : l2 <> l1) by (intros E; rewrite E in Hf2; congruence).
  assert (Hl' : loggers w1 !! l = Some r)
    by (unfold w1; simpl; by rewrite lookup_insert_ne).
  assert (Hne3 : l2 <> l) by (intros E; rewrite E in Hf2; congruence).
  eexists l1, l2, w1, _, r1, _.
  split; [exact H1|]. split; [exact H2|]. simpl.
  split; [by rewrite lookup_insert_ne|].
  split; [apply lookup_insert_eq|].
  split; [reflexivity|].
  split; [apply insert_insert_eq|].
  split; [intros ->; apply insert_insert_eq|].
  by rewrite lookup_insert_ne.
Qed.

Lemma AddField_overwrites_witness :
  exists (l1 l2 : loc) (w1 w2 : World) (r2 : Logger),
    Logger.AddField defaultLogger "k" (VInt 1) sample_world = (Return l1, w1) /\
    Logger.AddField l1 "k" (VInt 2) w1 = (Return l2, w2) /\
    loggers w2 !! l2 = Some r2 /\
    fields r2 = <["k" := VInt 2]> ∅.
Proof.
  assert (Hl : loggers sample_world !! defaultLogger
               = Some (mkLogger LevelInfo 0%nat ∅ os_Stdout "2006-01-02 15:04:05"))
    by reflexivity.
  destruct (AddField_overwrites sample_world defaultLogger _ "k" (VInt 1) (VInt 2) Hl)
    as (l1 & l2 & w1 & w2 & r1 & r2 & H1 & H2 & _ & H3 & _ & H4 & _).
  by exists l1, l2, w1, w2, r2.
Defined.

(** X8: [AddFields] with an empty map is a plain copy: a logger that was
    not there before, with the field set, threshold, sink and time format
    of the receiver, which is left as it was. *)
Theorem AddFields_empty_copies (w : World) (l : loc) (r : Logger) :
  loggers w !! l = Some r ->
  exists l' : loc,
    Logger.AddFields l ∅ w = (Return l', with_logger w l' r) /\
    loggers w !! l' = None /\ l' <> l /\
    loggers (Logger.AddFields l ∅ w).2 !! l = Some r.
Proof.
  intros Hl. pose proof (fresh_loc_None w) as Hf.
  exists (fresh (dom (loggers w))).
  assert (Hne : fresh (dom (loggers w)) <> l)
    by (intros E; rewrite E in Hf; congruence).
  rewrite (AddFields_run _ _ _ _ Hl), (left_id_L ∅ (∪)).
  split; [by destruct r|]. split; [done|]. split; [done|].
  simpl. by rewrite lookup_insert_ne.
Qed.

Lemma AddFields_empty_copies_witness :
  exists l' : loc,
    Logger.AddFields defaultLogger ∅ sample_world
      = (Return l', with_logger sample_world l'
                      (mkLogger LevelInfo 0%nat ∅ os_Stdout "2006-01-02 15:04:05")) /\
    l' <> defaultLogger.
Proof.
  assert (Hl : loggers sample_world !! defaultLogger
               = Some (mkLogger LevelInfo 0%nat ∅ os_Stdout "2006-01-02 15:04:05"))
    by reflexivity.
  destruct (AddFields_empty_copies sample_world defaultLogger _ Hl)
    as (l' & H1 & _ & H2 & _).
  by exists l'.
Defined.

(** X5: a derived logger is a copy, not a view.  After [AddField], setting
    the threshold, the time format or the sink of the receiver leaves the
    derived logger as it was, and the other way round; the two do share
    their [log.Logger], so [SetOutput] on the derived logger redirects that
    one, while the lines of the receiver, when its own sink is there, still
    go to its own sink. *)
Theorem derived_is_independent (w : World) (l : loc) (r : Logger) (s : StdLogger)
    (key : string) (value : Value) :
  loggers w !! l = Some r -> stdloggers w !! logger r = Some s ->
  exists (l' : loc) (w1 : World) (r' : Logger),
    Logger.AddField l key value w = (Return l', w1) /\
    loggers w1 !! l' = Some r' /\ loggers w1 !! l = Some r /\
    logger r' = logger r /\
    (forall lvl, loggers (Logger.SetLevel l lvl w1).2 !! l' = Some r') /\
    (forall f, loggers (Logger.SetTimeFormat l f w1).2 !! l' = Some r') /\
    (forall out, loggers (Logger.SetOutput l out w1).2 !! l' = Some r') /\
    (forall lvl, loggers (Logger.SetLevel l' lvl w1).2 !! l = Some r) /\
    (forall f, loggers (Logger.SetTimeFormat l' f w1).2 !! l = Some r) /\
    (forall out,
       loggers (Logger.SetOutput l' out w1).2 !! l = Some r /\
       stdloggers (Logger.SetOutput l' out w1).2 !! logger r
         = Some (mkStdLogger out (std_prefix s) (std_flags s)) /\
       forall lvl msg, level r <= lvl -> is_sink (output r) = true ->
         exists text,
           written (Logger.log l lvl msg (Logger.SetOutput l' out w1).2).2
             = app (written w) [(output r, text ++ newline)]).
Proof.
  intros Hl Hs.
  pose proof (AddField_run w l r key value Hl) as H1.
  pose proof (fresh_loc_None w) as Hf.
  set (l' := fresh (dom (loggers w))) in *.
  set (r' := mkLogger (level r) (logger r) (<[key := value]> (fields r))
               (output r) (timeFormat r)) in *.
  set (w1 := with_logger w l' r') in *.
  assert (Hne : l' <> l) by (intros E; rewrite E in Hf; congruence).
  assert (Hl1 : loggers w1 !! l' = Some r') by apply lookup_insert_eq.
  assert (Hl0 : loggers w1 !! l = Some r)
    by (unfold w1; simpl; by rewrite lookup_insert_ne).
  assert (Hs1 : stdloggers w1 !! logger r = Some s) by done.
  exists l', w1, r'.
  split; [exact H1|]. split; [done|]. split; [done|]. split; [reflexivity|].
  split; [intros lvl; rewrite (SetLevel_step _ _ _ lvl Hl0); simpl;
          by rewrite lookup_insert_ne|].
  split; [intros f; rewrite (SetTimeFormat_step _ _ _ f Hl0); simpl;
          by rewrite lookup_insert_ne|].
  split; [intros out; rewrite (SetOutput_step _ _ _ _ out Hl0 Hs1); simpl;
          by rewrite lookup_insert_ne|].
  split; [intros lvl; rewrite (SetLevel_step _ _ _ lvl Hl1); simpl;
          by rewrite lookup_insert_ne|].
  split; [intros f; rewrite (SetTimeFormat_step _ _ _ f Hl1); simpl;
          by rewrite lookup_insert_ne|].
  intros out. rewrite (SetOutput_step _ _ _ _ out Hl1 Hs1).
  assert (Hl2 : loggers (with_logger w1 l' (with_output r' out)) !! l = Some r)
    by (simpl; by rewrite !lookup_insert_ne).
  split; [exact Hl2|]. split; [apply lookup_insert_eq|].
  intros lvl msg Hlvl Hsink. cbn [snd].
  destruct (log_run_std (with_logger w1 l' (with_output r' out)) (logger r') out s
              l r lvl msg Hl2) as [Hw _].
  rewrite Hw. rewrite (log_run _ _ _ lvl msg Hl2).
  destruct (Z.ltb_spec lvl (level r)); [lia|].
  destruct (Marshal _); rewrite (line_out_sink _ _ _ _ Hsink);
    eexists; reflexivity.
Qed.

Lemma derived_is_independent_witness :
  exists (l' : loc) (w1 : World) (r' : Logger),
    Logger.AddField defaultLogger "k" VNil sample_world = (Return l', w1) /\
    loggers w1 !! l' = Some r' /\
    loggers (Logger.SetLevel defaultLogger LevelError w1).2 !! l' = Some r' /\
    level r' = LevelInfo.
Proof.
  assert (Hl : loggers sample_world !! defaultLogger
               = Some (mkLogger LevelInfo 0%nat ∅ os_Stdout "2006-01-02 15:04:05"))
    by reflexivity.
  assert (Hs : stdloggers sample_world !! 0%nat
               = Some (mkStdLogger os_Stdout "" log_LstdFlags)) by reflexivity.
  destruct (derived_is_independent sample_world defaultLogger _ _ "k" VNil Hl Hs)
    as (l' & w1 & r' & H1 & H2 & _ & _ & H3 & _).
  exists l', w1, r'. split; [exact H1|]. split; [exact H2|].
  split; [apply H3|].
  rewrite (AddField_run _ _ _ "k" VNil Hl) in H1. injection H1 as <- <-.
  rewrite with_logger_lookup in H2. by injection H2 as <-.
Defined.
(* ===================================================================== *)
(** ** What a call of [log] leaves *)
(* ===================================================================== *)








(* ===================================================================== *)
(** ** The line of a logger without fields *)
(* ===================================================================== *)

Lemma sortedEntries_bare (a b c : Value) :
  sortedEntries (<["time" := c]> (<["message" := b]> (<["level" := a]> ∅)))
    = [("level", a); ("message", b); ("time", c)].
Proof. vm_compute. reflexivity. Qed.

Lemma Marshal_bare (name msg ts : string) :
  Marshal (<["time" := VString ts]>
             (<["message" := VString msg]> (<["level" := VString name]> ∅)))
    = Ok (bare_line name msg ts).
Proof.
  unfold Marshal. rewrite sortedEntries_bare.
  cbn [encode encodeMembers]. unfold bare_line.
  change (appendString "level") with (quoted "level").
  change (appendString "message") with (quoted "message").
  change (appendString "time") with (quoted "time").
  by rewrite !str_app_assoc.
Qed.

(** Text of bytes that need no escape is written between two quotes as it
    is. *)
Lemma appendString_html_safe (s : string) :
  html_safe s = true -> appendString s = quoted s.
Proof.
  intros H. unfold appendString, quoted. f_equal. f_equal.
  induction s as [|c s IH]; [reflexivity|].
  cbn [html_safe] in H. apply andb_prop in H as [H Hs].
  apply andb_prop in H as [Hlt Hsafe].
  cbn [appendString_go]. unfold classify. rewrite Hlt. cbn [next_skip].
  rewrite Hsafe, str_app_cons, str_app_nil_l. by rewrite IH.
Qed.

Lemma LogLevel_String_html_safe (lvl : LogLevel) :
  html_safe (LogLevel_String lvl) = true.
Proof.
  unfold LogLevel_String, levelNames.
  repeat (rewrite lookup_insert; case_decide; [reflexivity|]).
  by rewrite lookup_empty.
Qed.

(** X11: a logger without fields whose sink is there writes, at or above
    its threshold, the
    object of the three members level, message and time in this order,
    without white space and ended by a newline; the name of the severity
    stands between quotes as it is, and so does every message and every
    timestamp made of bytes that [json.Marshal] does not escape. *)
Theorem bare_logger_line (w : World) (l : loc) (r : Logger) (lvl : LogLevel)
    (msg : string) :
  loggers w !! l = Some r ->
  fields r = ∅ ->
  level r <= lvl ->
  is_sink (output r) = true ->
  Logger.log l lvl msg w =
    (Return tt,
     emitted w (output r)
       (bare_line (LogLevel_String lvl) msg
          (Format (clock w (ticks w)) (timeFormat r)) ++ newline) 1) /\
  appendString (LogLevel_String lvl) = quoted (LogLevel_String lvl) /\
  (forall s : string, html_safe s = true -> appendString s = quoted s).
Proof.
  intros Hl HF Hlvl Hs. rewrite (log_run _ _ _ lvl msg Hl).
  destruct (Z.ltb_spec lvl (level r)); [lia|].
  rewrite log_entry_union, HF, (left_id_L ∅ (∪)), Marshal_bare.
  split; [by apply line_out_sink|]. split.
  - apply appendString_html_safe, LogLevel_String_html_safe.
  - apply appendString_html_safe.
Qed.

Lemma bare_logger_line_witness :
  Logger.log defaultLogger LevelWarn "disk full" sample_world =
    (Return tt,
     emitted sample_world os_Stdout
       (bare_line "WARN" "disk full" "2024-01-02 15:04:00" ++ newline) 1).
Proof.
  assert (Hl : loggers sample_world !! defaultLogger
               = Some (mkLogger LevelInfo 0%nat ∅ os_Stdout "2006-01-02 15:04:05"))
    by reflexivity.
  assert (Hlvl : level (mkLogger LevelInfo 0%nat ∅ os_Stdout "2006-01-02 15:04:05")
                 <= LevelWarn) by (simpl; unfold LevelInfo, LevelWarn; lia).
  exact (proj1 (bare_logger_line sample_world defaultLogger _ LevelWarn "disk full"
                  Hl eq_refl Hlvl eq_refl)).
Defined.

(** X16: the default logger as package initialisation leaves it, whatever
    the clock: [Debug] writes nothing and leaves the world as it was, and
    [Info], [Warn] and [Error] write the line of the three members to
    standard output, with the time in the default layout. *)
Theorem default_logger_initially (c : nat -> Time) (msg : string) :
  Debug msg (init_world c) = (Return tt, init_world c) /\
  forall lvl : LogLevel, LevelInfo <= lvl ->
    Logger.log defaultLogger lvl msg (init_world c) =
      (Return tt,
       emitted (init_world c) os_Stdout
         (bare_line (LogLevel_String lvl) msg
            (Format (c 0%nat) "2006-01-02 15:04:05") ++ newline) 1).
Proof.
  assert (Hl : loggers (init_world c) !! defaultLogger
               = Some (mkLogger LevelInfo 0%nat ∅ os_Stdout "2006-01-02 15:04:05"))
    by reflexivity.
  split.
  - unfold Debug, Logger.Debug. by rewrite (log_run _ _ _ _ msg Hl).
  - intros lvl Hlvl. rewrite (log_run _ _ _ lvl msg Hl). cbn [level].
    destruct (Z.ltb_spec lvl LevelInfo); [lia|].
    rewrite log_entry_union. cbn [fields timeFormat output].
    by rewrite (left_id_L ∅ (∪)), Marshal_bare.
Qed.

(* ===================================================================== *)
(** ** Severity names are told apart *)
(* ===================================================================== *)

Lemma LogLevel_String_cases (l : LogLevel) :
  (l = LevelDebug /\ LogLevel_String l = "DEBUG") \/
  (l = LevelInfo /\ LogLevel_String l = "INFO") \/
  (l = LevelWarn /\ LogLevel_String l = "WARN") \/
  (l = LevelError /\ LogLevel_String l = "ERROR") \/
  (l = LevelFatal /\ LogLevel_String l = "FATAL") \/
  (l = LevelPanic /\ LogLevel_String l = "PANIC") \/
  ((l < LevelDebug \/ LevelPanic < l) /\ LogLevel_String l = "UNKNOWN").
Proof.
  destruct (decide (l = LevelDebug)) as [->|H0]; [by left|].
  destruct (decide (l = LevelInfo)) as [->|H1]; [by right; left|].
  destruct (decide (l = LevelWarn)) as [->|H2]; [by do 2 right; left|].
  destruct (decide (l = LevelError)) as [->|H3]; [by do 3 right; left|].
  destruct (decide (l = LevelFatal)) as [->|H4]; [by do 4 right; left|].
  destruct (decide (l = LevelPanic)) as [->|H5]; [by do 5 right; left|].
  do 6 right. split.
  - unfold LevelDebug, LevelInfo, LevelWarn, LevelError, LevelFatal, LevelPanic in *.
    lia.
  - unfold LogLevel_String, levelNames.
    by rewrite !lookup_insert_ne, lookup_empty.
Qed.

(** X17: no two severities share a display name, and no severity of the
    six is called UNKNOWN: a severity of the six whose name is the name of
    another integer is that integer. *)
Theorem LogLevel_String_injective (a b : LogLevel) :
  LevelDebug <= a <= LevelPanic ->
  LogLevel_String a = LogLevel_String b ->
  a = b.
Proof.
  intros Ha H.
  destruct (LogLevel_String_cases a)
    as [[-> Ea]|[[-> Ea]|[[-> Ea]|[[-> Ea]|[[-> Ea]|[[-> Ea]|[Hout Ea]]]]]]];
  destruct (LogLevel_String_cases b)
    as [[-> Eb]|[[-> Eb]|[[-> Eb]|[[-> Eb]|[[-> Eb]|[[-> Eb]|[_ Eb]]]]]]];
  try reflexivity; try lia;
  rewrite Ea, Eb in H; discriminate H.
Qed.

Lemma LogLevel_String_injective_witness :
  LevelWarn = 2.
Proof.
  apply (LogLevel_String_injective LevelWarn 2).
  - unfold LevelDebug, LevelWarn, LevelPanic. lia.
  - reflexivity.
Defined.
(* ===================================================================== *)
(** ** When the fallback line is a JSON text *)
(* ===================================================================== *)

Lemma parse_chars_plain_text (s rest : string) :
  plain s = true ->
  parse_chars (s ++ String (byte_of 34) rest) = Some (s, rest).
Proof.
  induction s as [|c s IH]; intros H; [reflexivity|].
  cbn [plain] in H. apply andb_prop in H as [H Hs].
  apply andb_prop in H as [H H5C]. apply andb_prop in H as [H20 H22].
  apply N.leb_le in H20. apply negb_true_iff, byte_is_false in H22, H5C.
  rewrite str_app_cons, parse_chars_plain by done.
  rewrite (IH Hs), prepend_Some. by rewrite str_app_cons, str_app_nil_l.
Qed.

(** A member whose value is a string, as [fmt.Sprintf] lays it out in the
    fallback line: the key, a colon, one space, the value. *)
Lemma parse_members_string (fuel : nat) (k v tail : string) :
  plain k = true -> plain v = true ->
  parse_members (S (S fuel)) (quoted k ++ ": " ++ quoted v ++ tail) =
    match skip_ws tail with
    | "" => None
    | String c r4 =>
        if byte_is c 0x2C
        then with_rest (cons (k, JString v)) (parse_members (S fuel) r4)
        else if byte_is c 0x7D then Some ([(k, JString v)], r4)
        else None
    end.
Proof.
  intros Hk Hv. unfold quoted, quote. autorewrite with str.
  cbn [parse_members]. rewrite skip_ws_start by reflexivity.
  change (byte_is (byte_of 34) 34) with true. cbv iota.
  rewrite (parse_chars_plain_text _ _ Hk).
  rewrite skip_ws_start by reflexivity.
  change (byte_is ":" 58) with true. cbv iota.
  cbn [parse_value].
  change (skip_ws (String " " ?s)) with (skip_ws s).
  rewrite skip_ws_start by reflexivity.
  change (byte_is (byte_of 34) 123) with false.
  change (byte_is (byte_of 34) 91) with false.
  change (byte_is (byte_of 34) 34) with true. cbv iota.
  rewrite (parse_chars_plain_text _ _ Hv). reflexivity.
Qed.

Lemma parse_object_members (fuel : nat) (k tail : string) :
  parse_value (S fuel) ("{" ++ quoted k ++ tail) =
    with_rest JObject (parse_members fuel (quoted k ++ tail)).
Proof.
  unfold quoted, quote. autorewrite with str.
  cbn [parse_value]. rewrite skip_ws_start by reflexivity.
  change (byte_is "{" 123) with true. cbv iota.
  rewrite skip_ws_start by reflexivity.
  change (byte_is (byte_of 34) 125) with false. reflexivity.
Qed.

Lemma parse_fallback_line (err ts : string) :
  plain err = true -> plain ts = true ->
  parse (fallback_line err ts) = Some (JObject (fallback_members err ts)).
Proof.
  intros He Ht. unfold parse.
  assert (Hlen : exists n : nat,
             (2 * String.length (fallback_line err ts) + 2 = 6 + n)%nat).
  { exists (2 * String.length (fallback_line err ts) - 4)%nat.
    unfold fallback_line, quoted, quote. rewrite !str_app_length.
    cbn [String.length]. lia. }
  destruct Hlen as [n ->]. unfold fallback_line.
  change (6 + n)%nat with (S (S (S (S (S (S n)))))).
  rewrite parse_object_members.
  rewrite parse_members_string by reflexivity.
  rewrite str_app_cons, str_app_nil_l, skip_ws_start by reflexivity.
  change (byte_is "," 44) with true. cbv iota.
  rewrite parse_members_string by reflexivity.
  rewrite str_app_cons, str_app_nil_l, skip_ws_start by reflexivity.
  change (byte_is "," 44) with true. cbv iota.
  rewrite parse_members_string by (reflexivity || assumption).
  rewrite str_app_cons, str_app_nil_l, skip_ws_start by reflexivity.
  change (byte_is "," 44) with true. cbv iota.
  rewrite parse_members_string by (reflexivity || assumption).
  reflexivity.
Qed.

Lemma plain_app (s t : string) : plain (s ++ t) = plain s && plain t.
Proof.
  induction s as [|c s IH]; [by rewrite str_app_nil_l|].
  rewrite str_app_cons. cbn [plain]. rewrite IH. by rewrite !andb_assoc.
Qed.

Lemma plain_digits2 (x : Z) : 0 <= x <= 99 -> plain (digits2 x) = true.
Proof.
  intros Hx.
  apply (Z_below_forallb 100 (fun x => plain (digits2 x)));
    [vm_compute; reflexivity | lia].
Qed.

Lemma plain_digits4 (x : Z) : 0 <= x <= 9999 -> plain (digits4 x) = true.
Proof.
  intros Hx. unfold digits4. rewrite plain_app.
  rewrite !plain_digits2; [reflexivity| |]; Z.div_mod_to_equations; lia.
Qed.

(** The default layout gives a civil time without a byte that a JSON string
    could not hold. *)
Lemma plain_default_time (t : Time) :
  civil t -> plain (Format t "2006-01-02 15:04:05") = true.
Proof.
  intros (Hy & Hmo & Hd & Hh & Hmi & Hs).
  rewrite Format_default_layout.
  rewrite appendInt_4, !appendInt_2 by lia.
  rewrite !plain_app, plain_digits4, !plain_digits2 by lia. reflexivity.
Qed.

Lemma is_ascii_app (s t : string) : is_ascii (s ++ t) = is_ascii s && is_ascii t.
Proof.
  induction s as [|c s IH]; [by rewrite str_app_nil_l|].
  rewrite str_app_cons. cbn [is_ascii]. by rewrite IH, andb_assoc.
Qed.

(** Bytes below 0x80 in front do not bear on validity. *)
Lemma ValidString_ascii_app (p s : string) :
  is_ascii p = true -> ValidString (p ++ s) = ValidString s.
Proof.
  unfold ValidString. induction p as [|c p IH]; intros H; [by rewrite str_app_nil_l|].
  cbn [is_ascii] in H. apply andb_prop in H as [Hc Hp].
  rewrite str_app_cons. cbn [valid_go]. unfold classify at 1 2. rewrite Hc.
  cbn [next_skip andb]. by apply IH.
Qed.

Lemma ValidString_ascii (s : string) : is_ascii s = true -> ValidString s = true.
Proof.
  intros H. rewrite <- (str_app_nil_r s). by rewrite ValidString_ascii_app.
Qed.

Lemma is_ascii_digits2 (x : Z) : 0 <= x <= 99 -> is_ascii (digits2 x) = true.
Proof.
  intros Hx.
  apply (Z_below_forallb 100 (fun x => is_ascii (digits2 x)));
    [vm_compute; reflexivity | lia].
Qed.

Lemma is_ascii_digits4 (x : Z) : 0 <= x <= 9999 -> is_ascii (digits4 x) = true.
Proof.
  intros Hx. unfold digits4. rewrite is_ascii_app.
  rewrite !is_ascii_digits2; [reflexivity| |]; Z.div_mod_to_equations; lia.
Qed.

(** The default layout gives a civil time that a JSON string holds as it
    is. *)
Lemma verbatim_default_time (t : Time) :
  civil t -> verbatim (Format t "2006-01-02 15:04:05") = true.
Proof.
  intros Hc. unfold verbatim. rewrite (plain_default_time t Hc).
  apply ValidString_ascii.
  destruct Hc as (Hy & Hmo & Hd & Hh & Hmi & Hs).
  rewrite Format_default_layout.
  rewrite appendInt_4, !appendInt_2 by lia.
  rewrite !is_ascii_app, is_ascii_digits4, !is_ascii_digits2 by lia. reflexivity.
Qed.

(** X12: the fallback line is a JSON text whenever the error text and the
    formatted time are valid UTF-8 and hold no control byte, no double
    quote and no backslash: written to a sink that is there, it reads back
    as the object of the four members level, message, error and time, with
    the error text and the time as they are.  The default layout gives such
    a time for every civil time, and the error of an unsupported type is
    such a text when the name of the type is. *)
Theorem fallback_line_valid (w : World) (l : loc) (r : Logger) (lvl : LogLevel)
    (msg err : string) :
  loggers w !! l = Some r ->
  level r <= lvl ->
  is_sink (output r) = true ->
  Marshal (log_entry r lvl msg (clock w (ticks w))) = Err err ->
  verbatim err = true ->
  verbatim (Format (clock w (S (ticks w))) (timeFormat r)) = true ->
  (exists text : string,
     Logger.log l lvl msg w = (Return tt, emitted w (output r) (text ++ newline) 2) /\
     parse text =
       Some (JObject (fallback_members err
                        (Format (clock w (S (ticks w))) (timeFormat r))))) /\
  (forall t : Time, civil t -> verbatim (Format t "2006-01-02 15:04:05") = true) /\
  (forall typ : string, verbatim typ = true ->
     exists e : string, encode (VUnsupported typ) = Err e /\ verbatim e = true).
Proof.
  intros Hl Hlvl Hs Herr He Ht.
  apply andb_prop in He as [He _]. apply andb_prop in Ht as [Ht _].
  split; [|split].
  - exists (fallback_line err (Format (clock w (S (ticks w))) (timeFormat r))).
    split; [|by apply parse_fallback_line].
    rewrite (log_run _ _ _ _ _ Hl), Herr.
    destruct (Z.ltb_spec lvl (level r)); [lia | by apply line_out_sink].
  - apply verbatim_default_time.
  - intros typ Htyp. apply andb_prop in Htyp as [Hp Hv].
    eexists. split; [reflexivity|]. unfold verbatim.
    by rewrite plain_app, Hp, ValidString_ascii_app, Hv.
Qed.

Lemma fallback_line_valid_witness :
  exists text : string,
    Logger.log derived LevelWarn "boom" (world_with_field "ch" (VUnsupported "chan int"))
      = (Return tt,
         emitted (world_with_field "ch" (VUnsupported "chan int")) os_Stdout
           (text ++ newline) 2) /\
    parse text =
      Some (JObject (fallback_members "json: unsupported type: chan int"
                       "2024-01-02 15:04:01")).
Proof.
  assert (Hl : loggers (world_with_field "ch" (VUnsupported "chan int")) !! derived
               = Some (mkLogger LevelInfo 0%nat (<["ch" := VUnsupported "chan int"]> ∅)
                         os_Stdout "2006-01-02 15:04:05")) by reflexivity.
  assert (Hlvl : level (mkLogger LevelInfo 0%nat (<["ch" := VUnsupported "chan int"]> ∅)
                          os_Stdout "2006-01-02 15:04:05") <= LevelWarn)
    by (simpl; unfold LevelInfo, LevelWarn; lia).
  assert (Herr : Marshal (log_entry
                            (mkLogger LevelInfo 0%nat
                               (<["ch" := VUnsupported "chan int"]> ∅)
                               os_Stdout "2006-01-02 15:04:05")
                            LevelWarn "boom"
                            (clock (world_with_field "ch" (VUnsupported "chan int"))
                               (ticks (world_with_field "ch" (VUnsupported "chan int")))))
                 = Err "json: unsupported type: chan int")
    by (vm_compute; reflexivity).
  exact (proj1 (fallback_line_valid _ derived _ LevelWarn "boom" _ Hl Hlvl eq_refl
                  Herr eq_refl eq_refl)).
Defined.
(* ===================================================================== *)
(** ** The time format at work *)
(* ===================================================================== *)

(** The time of an entry, unless a field of that name replaces it. *)
Lemma log_entry_time_member (r : Logger) (lvl : LogLevel) (msg out : string)
    (now : Time) :
  fields r !! "time" = None ->
  Marshal (log_entry r lvl msg now) = Ok out ->
  exists kvs : list (string * JValue),
    parse out = Some (JObject kvs) /\
    member "time" kvs = Some (JString (coerce (Format now (timeFormat r)))).
Proof.
  intros Hnone Hout.
  exists (map readEntry (sortedEntries (log_entry r lvl msg now))).
  split; [by apply parse_Marshal|].
  rewrite (member_ascii _ "time" (VString (Format now (timeFormat r))));
    [reflexivity | reflexivity | apply sortedEntries_NoDup |].
  apply sortedEntries_elem. rewrite log_entry_union, lookup_union_r by done.
  apply lookup_insert_eq.
Qed.

(** X2: [SetTimeFormat] on a logger that is there returns its receiver and
    writes nothing, and the layout it stores is the one the next call of
    [log] renders the clock with.  For a call at or above the threshold on
    a logger whose sink is there: on the normal path the line is the entry
    marshalled with that layout, and its time member is the reading of the
    clock in that layout unless a field called time replaces it; on the
    fallback path the time of the fallback line is the second reading in
    that layout. *)
Theorem SetTimeFormat_applies (w : World) (l : loc) (r : Logger)
    (format : string) :
  loggers w !! l = Some r ->
  exists w1 : World,
    Logger.SetTimeFormat l format w = (Return l, w1) /\
    written w1 = written w /\
    forall (lvl : LogLevel) (msg : string),
      level r <= lvl -> is_sink (output r) = true ->
      (forall out : string,
         Marshal (log_entry (with_timeFormat r format) lvl msg (clock w (ticks w)))
           = Ok out ->
         Logger.log l lvl msg w1
           = (Return tt, emitted w1 (output r) (out ++ newline) 1) /\
         (fields r !! "time" = None ->
          exists kvs : list (string * JValue),
            parse out = Some (JObject kvs) /\
            member "time" kvs
              = Some (JString (coerce (Format (clock w (ticks w)) format))))) /\
      (forall err : string,
         Marshal (log_entry (with_timeFormat r format) lvl msg (clock w (ticks w)))
           = Err err ->
         Logger.log l lvl msg w1
           = (Return tt,
              emitted w1 (output r)
                (fallback_line err (Format (clock w (S (ticks w))) format)
                   ++ newline) 2)).
Proof.
  intros Hl.
  exists (with_logger w l (with_timeFormat r format)).
  split; [by apply SetTimeFormat_step|]. split; [reflexivity|].
  intros lvl msg Hlvl Hs.
  pose proof (with_logger_lookup w l (with_timeFormat r format)) as Hl1.
  assert (Hrun : Logger.log l lvl msg (with_logger w l (with_timeFormat r format)) =
            match Marshal (log_entry (with_timeFormat r format) lvl msg
                             (clock w (ticks w))) with
            | Ok jsonData =>
                (Return tt,
                 emitted (with_logger w l (with_timeFormat r format)) (output r)
                   (jsonData ++ newline) 1)
            | Err err =>
                (Return tt,
                 emitted (with_logger w l (with_timeFormat r format)) (output r)
                   (fallback_line err (Format (clock w (S (ticks w))) format)
                      ++ newline) 2)
            end).
  { rewrite (log_run _ _ _ lvl msg Hl1). cbn [level with_timeFormat].
    destruct (Z.ltb_spec lvl (level r)); [lia|].
    change (clock (with_logger w l (with_timeFormat r format))) with (clock w).
    change (ticks (with_logger w l (with_timeFormat r format))) with (ticks w).
    fold (with_timeFormat r format). cbn [output timeFormat].
    by destruct (Marshal _); rewrite (line_out_sink _ _ _ _ Hs). }
  split.
  - intros out Hout. split; [by rewrite Hrun, Hout|].
    intros Hnone.
    apply (log_entry_time_member (with_timeFormat r format) lvl msg out
             (clock w (ticks w)) Hnone Hout).
  - intros err Herr. by rewrite Hrun, Herr.
Qed.

Lemma SetTimeFormat_applies_witness :
  exists w1 : World,
    Logger.SetTimeFormat defaultLogger "15:04" sample_world = (Return defaultLogger, w1) /\
    written w1 = written sample_world.
Proof.
  assert (Hl : loggers sample_world !! defaultLogger
               = Some (mkLogger LevelInfo 0%nat ∅ os_Stdout "2006-01-02 15:04:05"))
    by reflexivity.
  destruct (SetTimeFormat_applies sample_world defaultLogger _ "15:04" Hl)
    as (w1 & H1 & H2 & _).
  exists w1. by split.
Defined.
